(** * ssf: the stream_listener microservice (sockets_to_fibers.h)

    A shallow embedding of [SocketsToFibers<Demux>]: the factory method
    [Create], the creation request builder [GetCreateRequest], and the
    session bookkeeping of the running service.

    Unsigned machine integers are values of [N] with their wrap-around
    written out; the [Parameters] map is a [gmap string string]. *)

From Stdlib Require Import NArith Ascii String DecimalString DecimalN Lia.
From stdpp Require Import base option gmap strings list.

Local Open Scope string_scope.
Local Open Scope N_scope.

(** ** The C++ standard library functions the header calls *)

Module Std.

(** [unsigned long] is 64 bits wide on LP64 targets (Linux, macOS) and
    32 bits wide on LLP64 and ILP32 targets (Windows, 32-bit builds). *)
Inductive ULongWidth : Set := UL32 | UL64.

Definition ULONG_MAX (w : ULongWidth) : N :=
  match w with
  | UL32 => 2 ^ 32 - 1
  | UL64 => 2 ^ 64 - 1
  end.

(** The exceptions [std::stoul] throws; both derive from
    [std::exception]. *)
Inductive exception : Set := invalid_argument | out_of_range.

(** [isspace] in the "C" locale: space, and the controls \t \n \v \f \r. *)
Definition isspace (c : ascii) : bool :=
  let n := N_of_ascii c in
  (n =? 32) || ((9 <=? n) && (n <=? 13)).

Definition isdigit (c : ascii) : bool :=
  let n := N_of_ascii c in
  (48 <=? n) && (n <=? 57).

Definition digit_value (c : ascii) : N := N_of_ascii c - 48.

Fixpoint skip_space (s : string) : string :=
  match s with
  | String c rest => if isspace c then skip_space rest else s
  | EmptyString => s
  end.

(** The optional sign of the subject sequence: [true] for a minus. *)
Definition take_sign (s : string) : bool * string :=
  match s with
  | String "+" rest => (false, rest)
  | String "-" rest => (true, rest)
  | _ => (false, s)
  end.

(** The longest run of decimal digits [s] starts with. *)
Fixpoint digit_run (s : string) : list ascii :=
  match s with
  | String c rest => if isdigit c then c :: digit_run rest else []
  | EmptyString => []
  end.

(** The value of a digit run, most significant digit first. *)
Fixpoint digits_value (ds : list ascii) (acc : N) : N :=
  match ds with
  | [] => acc
  | c :: rest => digits_value rest (acc * 10 + digit_value c)
  end.

(** [std::stoul(str)] (no position pointer, base 10), which is
    [strtoul]: leading white space is skipped, one sign is accepted, the
    longest digit run is converted and whatever follows is ignored.  No
    digit at that place throws [invalid_argument]; a magnitude above
    [ULONG_MAX] throws [out_of_range]; a minus sign negates the result in
    the unsigned type. *)
Definition stoul (w : ULongWidth) (str : string) : exception + N :=
  let '(minus, body) := take_sign (skip_space str) in
  match digit_run body with
  | [] => inl invalid_argument
  | ds =>
      let v := digits_value ds 0 in
      if ULONG_MAX w <? v then inl out_of_range
      else inr (if minus then (ULONG_MAX w + 1 - v) mod (ULONG_MAX w + 1) else v)
  end.

(** [std::to_string] of an unsigned value: its decimal digits, no sign,
    no leading zero, ["0"] for zero. *)
Definition to_string (n : N) : string :=
  NilZero.string_of_uint (N.to_uint n).

(** Conversion to [uint32_t] and [uint16_t]. *)
Definition to_uint32 (v : N) : N := v mod 2 ^ 32.
Definition to_uint16 (v : N) : N := v mod 2 ^ 16.

End Std.

Import Std.

(** ** The factory method and the creation request *)

Abbreviation Parameters := (gmap string string).

(** [SSF_LOG] calls of [Create], by level and message. *)
Inductive LogLevel : Set := trace | warn | error.

Inductive LogMessage : Set :=
| cannot_listen_without_gateway_ports (addr : string)
| cannot_extract_port_parameters
| local_port_out_of_range (local_port : N).

Abbreviation LogEntry := (LogLevel * LogMessage)%type.

(** Modelled from the spec: [Demux::local_port_type] and
    [Demux::remote_port_type] are declared by the fiber demultiplexer,
    not by this header.  A fiber is "addressed by a numeric channel
    port, distinct from IP ports"; both types are taken as the 32-bit
    unsigned type of the [uint32_t] locals that [Create] feeds them. *)
Definition to_LocalPortType (v : N) : N := to_uint32 v.
Definition to_RemotePortType (v : N) : N := to_uint32 v.

(** Modelled from the spec: the object the private constructor (defined
    in sockets_to_fibers.ipp) builds from its arguments, "a non-started
    Service instance holding the resolved configuration": the fields
    [local_addr_], [local_port_] and [remote_port_] of the class. *)
Record SocketsToFibers : Set := mkSocketsToFibers {
  local_addr_ : string;
  local_port_ : N;
  remote_port_ : N
}.

(** A [std::shared_ptr<SocketsToFibers>]; [None] is [nullptr]. *)
Abbreviation SocketsToFibersPtr := (option SocketsToFibers).

(** [parameters.count(key)], as the condition it is used for. *)
Definition count (parameters : Parameters) (key : string) : bool :=
  match parameters !! key with
  | Some _ => true
  | None => false
  end.

(** [parameters.at(key)], which throws [std::out_of_range] on a missing
    key. *)
Definition at_ (parameters : Parameters) (key : string) : exception + string :=
  match parameters !! key with
  | Some v => inr v
  | None => inl out_of_range
  end.

(** Sequencing inside a [try] block: the first exception thrown leaves
    the block. *)
Definition try_bind {A B : Type} (x : exception + A) (k : A -> exception + B)
  : exception + B :=
  match x with
  | inl e => inl e
  | inr a => k a
  end.

Notation "'do' x <- e ; k" := (try_bind e (fun x => k))
  (at level 10, x name, e at level 100, k at level 200).

(** The four [return] statements of [Create]. *)
Inductive CreateExit : Set :=
| exit_missing_key
| exit_port_parse
| exit_port_range
| exit_created (p : SocketsToFibers).

(** The bind address after lines 82-97, with what was logged there. *)
Definition bind_address (parameters : Parameters) (gateway_ports : bool)
  : list LogEntry * string :=
  let local_addr := "127.0.0.1" in
  match parameters !! "local_addr" with
  | Some requested =>
      if negb (String.eqb requested "") then
        if gateway_ports then
          if String.eqb requested "*" then ([], "0.0.0.0")
          else ([], requested)
        else ([(warn, cannot_listen_without_gateway_ports requested)], local_addr)
      else ([], local_addr)
  | None => ([], local_addr)
  end.

(** The [try] block of lines 101-103: both ports, already narrowed to
    the [uint32_t] locals they are assigned to. *)
Definition extract_ports (w : ULongWidth) (parameters : Parameters)
  : exception + (N * N) :=
  do lp_str <- at_ parameters "local_port";
  do lp <- stoul w lp_str;
  let local_port := to_uint32 lp in
  do rp_str <- at_ parameters "remote_port";
  do rp <- stoul w rp_str;
  let remote_port := to_uint32 rp in
  inr (local_port, remote_port).

(** [Create], with the log it writes and the [return] it leaves by.
    [w] is the width of [unsigned long] on the target. *)
Definition Create_at (w : ULongWidth) (parameters : Parameters)
    (gateway_ports : bool) : list LogEntry * CreateExit :=
  if negb (count parameters "local_addr") || negb (count parameters "local_port")
     || negb (count parameters "remote_port")
  then ([], exit_missing_key)
  else
    let '(log, local_addr) := bind_address parameters gateway_ports in
    match extract_ports w parameters with
    | inl _ => ((log ++ [(error, cannot_extract_port_parameters)])%list, exit_port_parse)
    | inr (local_port, remote_port) =>
        if 65535 <? local_port
        then ((log ++ [(error, local_port_out_of_range local_port)])%list, exit_port_range)
        else (log, exit_created
                     (mkSocketsToFibers local_addr
                        (to_LocalPortType (to_uint16 local_port))
                        (to_RemotePortType remote_port)))
    end.

(** The pointer a [return] statement hands back. *)
Definition ptr_of_exit (e : CreateExit) : SocketsToFibersPtr :=
  match e with
  | exit_created p => Some p
  | _ => None
  end.

(** [Create] as its caller sees it. *)
Definition Create (w : ULongWidth) (parameters : Parameters)
    (gateway_ports : bool) : SocketsToFibersPtr :=
  ptr_of_exit (Create_at w parameters gateway_ports).2.

Definition Create_log (w : ULongWidth) (parameters : Parameters)
    (gateway_ports : bool) : list LogEntry :=
  (Create_at w parameters gateway_ports).1.

(** The failure taxonomy of the specification, read off the [return]
    taken: a missing key and an unparseable port are [InvalidParameters],
    the failed range check is [OutOfRange]. *)
Inductive CreateError : Set := InvalidParameters | OutOfRange.

Definition failure (e : CreateExit) : option CreateError :=
  match e with
  | exit_missing_key => Some InvalidParameters
  | exit_port_parse => Some InvalidParameters
  | exit_port_range => Some OutOfRange
  | exit_created _ => None
  end.

Definition Create_failure (w : ULongWidth) (parameters : Parameters)
    (gateway_ports : bool) : option CreateError :=
  failure (Create_at w parameters gateway_ports).2.

(** Modelled from the spec: [admin::CreateServiceRequest<Demux>], declared
    outside this header: "factory identifier plus a Parameters map";
    [add_parameter] sets one key of that map. *)
Record CreateServiceRequest : Set := mkCreateServiceRequest {
  service_id : N;
  parameters : Parameters
}.

Definition add_parameter (key value : string) (r : CreateServiceRequest)
  : CreateServiceRequest :=
  mkCreateServiceRequest (service_id r) (<[key := value]> (parameters r)).

Section CreateRequest.

(** [to_underlying(MicroserviceId::kSocketsToFibers)]; the enumeration is
    declared in services/service_id.h. *)
Variable kFactoryId : N.

Definition GetCreateRequest (local_addr : string) (local_port remote_port : N)
  : CreateServiceRequest :=
  let create_req := mkCreateServiceRequest kFactoryId ∅ in
  let create_req := add_parameter "local_addr" local_addr create_req in
  let create_req := add_parameter "local_port" (to_string local_port) create_req in
  let create_req := add_parameter "remote_port" (to_string remote_port) create_req in
  create_req.

End CreateRequest.

(** ** The wording of the specification, for comparison with the code *)

(** "empty → loopback; "*" with gateway ports enabled → any-address; any
    other literal with gateway ports enabled → used verbatim; any other
    literal with gateway ports disabled → falls back to loopback". *)
Definition spec_bind_address (requested : string) (gateway_ports : bool) : string :=
  if decide (requested = "") then "127.0.0.1"
  else if gateway_ports then
         if decide (requested = "*") then "0.0.0.0" else requested
       else "127.0.0.1".

(** A "well-formed non-negative decimal integer": one digit or more and
    nothing else. *)
Definition well_formed_decimal (s : string) : bool :=
  match list_ascii_of_string s with
  | [] => false
  | cs => forallb isdigit cs
  end.

Definition decimal_value (s : string) : N :=
  digits_value (list_ascii_of_string s) 0.

(** The part of a port string [stoul] converts: the digit run after the
    white space and the sign. *)
Definition subject_digits (s : string) : list ascii :=
  digit_run (take_sign (skip_space s)).2.

(** [stoul] has nothing to convert, or the digits exceed [unsigned long]. *)
Definition unparseable (w : ULongWidth) (s : string) : Prop :=
  subject_digits s = [] ∨ ULONG_MAX w < digits_value (subject_digits s) 0.

(** A parameters map with exactly the three keys [Create] reads. *)
Definition three_keys (local_addr local_port remote_port : string) : Parameters :=
  <["local_addr" := local_addr]>
    (<["local_port" := local_port]> (<["remote_port" := remote_port]> ∅)).

(** ** Registration with the service factory *)

(** The creator lambda [RegisterToServiceFactory] hands to the factory:
    from the parameters of a request to a service pointer (the
    [io_service] and the demultiplexer only pass through [Create]). *)
Abbreviation ServiceCreator := (Parameters → SocketsToFibersPtr).

Section Registration.

(** The width of [unsigned long] on the target. *)
Variable w : ULongWidth.

(** [to_underlying(MicroserviceId::kSocketsToFibers)]. *)
Variable kFactoryId : N.

(** [Config] is declared in services/sockets_to_fibers/config.h; the
    header reads it through [enabled()] and [gateway_ports()]. *)
Variable Config : Type.
Variable Config_enabled : Config → bool.
Variable Config_gateway_ports : Config → bool.

(** [ServiceFactory<Demux>] and its [RegisterServiceCreator] are declared
    in core/factories/service_factory.h. *)
Variable ServiceFactory : Type.
Variable RegisterServiceCreator : N → ServiceCreator → ServiceFactory → ServiceFactory.

Definition RegisterToServiceFactory (p_factory : ServiceFactory) (config : Config)
  : ServiceFactory :=
  if negb (Config_enabled config) then p_factory
  else
    let gateway_ports := Config_gateway_ports config in
    let creator : ServiceCreator :=
      fun parameters => Create w parameters gateway_ports in
    RegisterServiceCreator kFactoryId creator p_factory.

End Registration.

(** ** The running service

    The header declares [start], [stop], [StopSession],
    [SocketAcceptHandler], [FiberConnectHandler] and the members
    [socket_acceptor_] and [manager_]; their bodies are in
    sockets_to_fibers.ipp and ssf/network/manager.h.  Every completion
    handler runs to its end on the single event loop, so a handler is
    one function on the state of the service. *)

Module Runtime.

(** Modelled from the spec: the states of a Session, "Connecting →
    Relaying → Closed (terminal)". *)
Inductive SessionState : Set := Connecting | Relaying | Closed.

#[global] Instance SessionState_eq_dec : EqDecision SessionState.
Proof. solve_decision. Defined.

(** Modelled from the spec: a Session, "the accepted TCP socket, the
    opened virtual channel endpoint, ... a state".  Sockets are named by
    the order of their acceptance; the channel opened for a socket bears
    the socket's name. *)
Record Session : Set := mkSession {
  tcp_socket : positive;
  sess_state : SessionState
}.

(** Modelled from the spec: the outcomes the lifecycle reports, out of the
    error taxonomy of its section 7. *)
Inductive error_code : Set := success | AlreadyStarted | BindFailure.

(** Modelled from the spec: the Service, "bind address, bind port, target
    channel port, listening endpoint, session registry", with the
    sessions it constructed (by registry identifier), the accepted
    sockets and opened channels that are not yet closed, and the sockets
    whose channel open is in flight.  [removals] records every [erase]
    that took an entry out of the registry, latest first. *)
Record Service : Type := mkService {
  config : SocketsToFibers;
  listening : bool;
  accept_pending : bool;
  next_socket : positive;
  open_sockets : gset positive;
  connecting : gset positive;
  open_channels : gset positive;
  sessions : gmap positive Session;
  registry : gset positive;
  next_id : positive;
  removals : list positive
}.

(** The service [Create] returns: not started, nothing accepted. *)
Definition initial (cfg : SocketsToFibers) : Service :=
  mkService cfg false false 1%positive ∅ ∅ ∅ ∅ ∅ 1%positive [].

Definition set_acceptor (l p : bool) (s : Service) : Service :=
  mkService (config s) l p (next_socket s) (open_sockets s) (connecting s)
    (open_channels s) (sessions s) (registry s) (next_id s) (removals s).

Definition set_endpoints (n : positive) (socks conn chans : gset positive)
    (s : Service) : Service :=
  mkService (config s) (listening s) (accept_pending s) n socks conn chans
    (sessions s) (registry s) (next_id s) (removals s).

Definition set_sessions (m : gmap positive Session) (s : Service) : Service :=
  mkService (config s) (listening s) (accept_pending s) (next_socket s)
    (open_sockets s) (connecting s) (open_channels s) m (registry s)
    (next_id s) (removals s).

Definition set_registry (r : gset positive) (n : positive) (rm : list positive)
    (s : Service) : Service :=
  mkService (config s) (listening s) (accept_pending s) (next_socket s)
    (open_sockets s) (connecting s) (open_channels s) (sessions s) r n rm.

(** *** SessionRegistry *)

(** Modelled from the spec: "insert(session) → id"; the session enters
    the registry under a fresh identifier. *)
Definition insert_session (sess : Session) (s : Service) : positive * Service :=
  let id := next_id s in
  (id, set_registry ({[id]} ∪ registry s) (Pos.succ id) (removals s)
         (set_sessions (<[id := sess]> (sessions s)) s)).

(** Modelled from the spec: "erase(id) (no-op if absent)". *)
Definition erase (id : positive) (s : Service) : Service :=
  if decide (id ∈ registry s)
  then set_registry (registry s ∖ {[id]}) (next_id s) (id :: removals s) s
  else s.

(** Modelled from the spec: teardown of a session, "both endpoints are
    closed/cancelled, and the session transitions to Closed", which
    "removes it" from the registry; "teardown must be idempotent". *)
Definition teardown (id : positive) (s : Service) : Service :=
  match sessions s !! id with
  | Some sess =>
      match sess_state sess with
      | Closed => s
      | _ =>
          let sock := tcp_socket sess in
          erase id
            (set_sessions (<[id := mkSession sock Closed]> (sessions s))
               (set_endpoints (next_socket s) (open_sockets s ∖ {[sock]})
                  (connecting s) (open_channels s ∖ {[sock]}) s))
      end
  | None => s
  end.

(** Modelled from the spec: "stopOne(id)". *)
Definition stopOne (id : positive) (s : Service) : Service :=
  if decide (id ∈ registry s) then teardown id s else s.

(** Stopping the sessions of a list of identifiers, whether they are
    still registered or not. *)
Definition stop_ids (ids : list positive) (s : Service) : Service :=
  fold_left (fun s id => stopOne id s) ids s.

(** Modelled from the spec: "stopAll() must snapshot the current set of
    ids before iterating and stopping". *)
Definition stopAll (s : Service) : Service :=
  stop_ids (elements (registry s)) s.

(** *** ServiceLifecycle and AcceptLoop *)

(** Modelled from the spec: "start(): binds and opens a listening
    endpoint ...  Bind failure → reports BindFailure, service remains not
    started"; "calling on an already-started service fails with
    AlreadyStarted"; after the bind one accept is pending.  [bind_ok] is
    what the operating system answers. *)
Definition start (bind_ok : bool) (s : Service) : Service * error_code :=
  if listening s then (s, AlreadyStarted)
  else if bind_ok then (set_acceptor true true s, success)
  else (s, BindFailure).

(** Modelled from the spec: what [stop] does to the channel opens still
    in flight, "stop() must cancel the pending accept and all in-flight
    session operations such that no further completion touches a freed
    resource": their sockets are closed and no completion is awaited
    for them any more. *)
Definition cancel_connects (s : Service) : Service :=
  set_endpoints (next_socket s) (open_sockets s ∖ connecting s) ∅
    (open_channels s) s.

(** Modelled from the spec: "stop(): idempotent — closes the listening
    endpoint (cancelling any pending accept), calls
    SessionRegistry.stopAll(), and releases all resources". *)
Definition stop (s : Service) : Service * error_code :=
  (stopAll (cancel_connects (set_acceptor false false s)), success).

(** Modelled from the spec: [StopSession], the registry's stopOne. *)
Definition StopSession (id : positive) (s : Service) : Service * error_code :=
  (stopOne id s, success).

(** Modelled from the spec: the completion of the pending accept.  A new
    connection starts "an asynchronous open of a virtual channel" and the
    accept is re-armed; a transient error is "logged, loop continues
    unchanged". *)
Definition SocketAcceptHandler (ok : bool) (s : Service) : Service :=
  if listening s && accept_pending s then
    if ok then
      let sock := next_socket s in
      set_endpoints (Pos.succ sock) ({[sock]} ∪ open_sockets s)
        ({[sock]} ∪ connecting s) (open_channels s) s
    else s
  else s.

(** *** SessionEstablisher *)

Definition set_state (id : positive) (st : SessionState) (s : Service) : Service :=
  set_sessions (alter (fun sess => mkSession (tcp_socket sess) st) id (sessions s)) s.

(** Modelled from the spec: the completion of the channel open for
    [sock].  "On success: constructs a Session linking the TCP socket and
    the new channel, inserts it into the SessionRegistry, transitions it
    to Relaying";  "On failure: closes the TCP socket, logs the failure,
    and discards it — no retry, no registry entry". *)
Definition FiberConnectHandler (sock : positive) (ok : bool) (s : Service) : Service :=
  if decide (sock ∈ connecting s) then
    if ok then
      let s1 := set_endpoints (next_socket s) (open_sockets s)
                  (connecting s ∖ {[sock]}) ({[sock]} ∪ open_channels s) s in
      let '(id, s2) := insert_session (mkSession sock Connecting) s1 in
      set_state id Relaying s2
    else
      set_endpoints (next_socket s) (open_sockets s ∖ {[sock]})
        (connecting s ∖ {[sock]}) (open_channels s) s
  else s.

(** *** The event loop *)

(** What can happen to a service: calls of the hosting framework and
    completions of asynchronous operations.  [ev_relay_end id] is the end
    of one direction of the relay of session [id] (EOF or reset). *)
Inductive Event : Set :=
| ev_start (bind_ok : bool)
| ev_stop
| ev_stop_session (id : positive)
| ev_accept (ok : bool)
| ev_fiber_connect (sock : positive) (ok : bool)
| ev_relay_end (id : positive).

Definition step (s : Service) (e : Event) : Service :=
  match e with
  | ev_start bind_ok => (start bind_ok s).1
  | ev_stop => (stop s).1
  | ev_stop_session id => (StopSession id s).1
  | ev_accept ok => SocketAcceptHandler ok s
  | ev_fiber_connect sock ok => FiberConnectHandler sock ok s
  | ev_relay_end id => teardown id s
  end.

Definition run (evs : list Event) (s : Service) : Service :=
  fold_left step evs s.

(** How often [erase] took [id] out of the registry. *)
Definition removal_count (id : positive) (s : Service) : nat :=
  count_occ Pos.eq_dec (removals s) id.

Definition live (sess : Session) : Prop :=
  sess_state sess = Connecting ∨ sess_state sess = Relaying.

(** The inductive invariant of the event loop. *)
Record Inv (s : Service) : Prop := mkInv {
  inv_registry : ∀ id,
    id ∈ registry s
    ↔ ∃ sess, sessions s !! id = Some sess ∧ sess_state sess ≠ Closed;
  inv_removed : ∀ id,
    removal_count id s
    = match sessions s !! id with
      | Some sess => match sess_state sess with Closed => 1%nat | _ => 0%nat end
      | None => 0%nat
      end;
  inv_fresh_id : ∀ id,
    is_Some (sessions s !! id) → (id < next_id s)%positive;
  inv_connecting : ∀ sock,
    sock ∈ connecting s → (sock < next_socket s)%positive;
  inv_session_socket : ∀ id sess,
    sessions s !! id = Some sess →
    (tcp_socket sess < next_socket s)%positive ∧ tcp_socket sess ∉ connecting s;
  inv_open_sockets : ∀ sock,
    sock ∈ open_sockets s →
    sock ∈ connecting s
    ∨ ∃ id sess, sessions s !! id = Some sess ∧ sess_state sess ≠ Closed
                 ∧ tcp_socket sess = sock;
  inv_open_channels : ∀ sock,
    sock ∈ open_channels s →
    ∃ id sess, sessions s !! id = Some sess ∧ sess_state sess ≠ Closed
               ∧ tcp_socket sess = sock
}.

(** A socket the service is done with: it was accepted, it is closed, no
    channel open is in flight for it and no session holds it. *)
Definition discarded (sock : positive) (s : Service) : Prop :=
  (sock < next_socket s)%positive
  ∧ (sock ∉ connecting s)
  ∧ (sock ∉ open_sockets s)
  ∧ ∀ id sess, sessions s !! id = Some sess → tcp_socket sess ≠ sock.

End Runtime.

(** * Properties of the factory *)

(** ** [stoul] and [to_string] *)

Lemma stoul_unfold w s :
  stoul w s =
    match subject_digits s with
    | [] => inl invalid_argument
    | ds =>
        let v := digits_value ds 0 in
        if ULONG_MAX w <? v then inl out_of_range
        else inr (if (take_sign (skip_space s)).1
                  then (ULONG_MAX w + 1 - v) mod (ULONG_MAX w + 1) else v)
    end.
Proof.
  unfold stoul, subject_digits.
  destruct (take_sign (skip_space s)) as [minus body]; reflexivity.
Qed.

Lemma stoul_error_iff w s :
  (∃ e, stoul w s = inl e) ↔ unparseable w s.
Proof.
  rewrite stoul_unfold. unfold unparseable.
  destruct (subject_digits s) as [|c ds] eqn:Hd.
  - split; [intros _; by left | intros _; by eexists].
  - cbv zeta. destruct (N.ltb_spec (ULONG_MAX w) (digits_value (c :: ds) 0)) as [Hlt|Hle].
    + split; [intros _; by right | intros _; by eexists].
    + split; [intros [e He]; discriminate | intros [Hnil|Hlt]; [discriminate | lia]].
Qed.

Lemma digits_value_of_uint_acc d acc :
  digits_value (digit_run (NilEmpty.string_of_uint d)) (Npos acc)
  = Npos (Pos.of_uint_acc d acc).
Proof.
  revert acc.
  induction d; intros acc; simpl; try reflexivity;
    rewrite <- IHd; f_equal; unfold digit_value; simpl; lia.
Qed.

Lemma digits_value_of_uint d :
  digits_value (digit_run (NilEmpty.string_of_uint d)) 0 = N.of_uint d.
Proof.
  induction d; simpl; try reflexivity; try exact IHd;
    unfold N.of_uint; simpl; rewrite <- digits_value_of_uint_acc; reflexivity.
Qed.

Lemma subject_digits_of_uint d :
  let s := NilZero.string_of_uint d in
  take_sign (skip_space s) = (false, s) ∧ digit_run s ≠ []
  ∧ digits_value (digit_run s) 0 = N.of_uint d.
Proof.
  destruct d; simpl; (split; [reflexivity | split; [discriminate |]]);
    try reflexivity.
  all: try (unfold N.of_uint; simpl; rewrite <- digits_value_of_uint_acc; reflexivity).
  exact (digits_value_of_uint d).
Qed.

(** [stoul] reads back what [to_string] printed, unless it exceeds
    [unsigned long]. *)
Lemma stoul_to_string w n :
  n ≤ ULONG_MAX w → stoul w (to_string n) = inr n.
Proof.
  intros Hn. unfold stoul, to_string.
  destruct (subject_digits_of_uint (N.to_uint n)) as (Hs & Hne & Hv).
  rewrite Hs. rewrite DecimalN.Unsigned.of_to in Hv.
  destruct (digit_run _) as [|c ds]; [done |].
  cbv zeta. rewrite Hv.
  destruct (N.ltb_spec (ULONG_MAX w) n); [lia | reflexivity].
Qed.

(** ** Unfolding [Create] on a map that has the three keys *)

Lemma count_true (parameters : Parameters) key v :
  parameters !! key = Some v → count parameters key = true.
Proof. unfold count. by intros ->. Qed.

Lemma count_false (parameters : Parameters) key :
  parameters !! key = None → count parameters key = false.
Proof. unfold count. by intros ->. Qed.

Lemma bind_address_spec (parameters : Parameters) gateway_ports a :
  parameters !! "local_addr" = Some a →
  bind_address parameters gateway_ports =
    (if negb (String.eqb a "") && negb gateway_ports
     then [(warn, cannot_listen_without_gateway_ports a)] else [],
     spec_bind_address a gateway_ports).
Proof.
  intros Ha. unfold bind_address, spec_bind_address. rewrite Ha.
  destruct (String.eqb_spec a "") as [->|Hne]; simpl; [done |].
  destruct (decide (a = "")) as [|_]; [done |].
  destruct gateway_ports; simpl; [| done].
  destruct (String.eqb_spec a "*") as [->|Hne']; [done |].
  destruct (decide (a = "*")); done.
Qed.

Lemma extract_ports_present w (parameters : Parameters) lp rp :
  parameters !! "local_port" = Some lp →
  parameters !! "remote_port" = Some rp →
  extract_ports w parameters =
    match stoul w lp, stoul w rp with
    | inr l, inr r => inr (to_uint32 l, to_uint32 r)
    | inl e, _ => inl e
    | inr _, inl e => inl e
    end.
Proof.
  intros Hl Hr. unfold extract_ports, at_, try_bind. rewrite Hl, Hr.
  destruct (stoul w lp), (stoul w rp); reflexivity.
Qed.

Lemma Create_at_present w (parameters : Parameters) gateway_ports a lp rp :
  parameters !! "local_addr" = Some a →
  parameters !! "local_port" = Some lp →
  parameters !! "remote_port" = Some rp →
  Create_at w parameters gateway_ports =
    let log := (bind_address parameters gateway_ports).1 in
    match stoul w lp, stoul w rp with
    | inr l, inr r =>
        if 65535 <? to_uint32 l
        then ((log ++ [(error, local_port_out_of_range (to_uint32 l))])%list,
              exit_port_range)
        else (log, exit_created
                     (mkSocketsToFibers (spec_bind_address a gateway_ports)
                        (to_uint32 l) (to_uint32 r)))
    | _, _ => ((log ++ [(error, cannot_extract_port_parameters)])%list,
               exit_port_parse)
    end.
Proof.
  intros Ha Hl Hr. unfold Create_at.
  rewrite (count_true _ _ _ Ha), (count_true _ _ _ Hl), (count_true _ _ _ Hr).
  simpl. rewrite (extract_ports_present _ _ _ _ Hl Hr).
  rewrite (bind_address_spec _ _ _ Ha). cbv zeta. simpl fst.
  destruct (stoul w lp) as [e|l]; [reflexivity |].
  destruct (stoul w rp) as [e|r]; [reflexivity |].
  destruct (N.ltb_spec 65535 (to_uint32 l)) as [Hgt|Hle]; [reflexivity |].
  unfold to_LocalPortType, to_RemotePortType, to_uint16, to_uint32 in *.
  do 3 f_equal.
  - rewrite (N.mod_small (_ mod 2 ^ 32) (2 ^ 16)) by lia.
    apply N.mod_small. apply N.mod_lt. lia.
  - apply N.mod_small. apply N.mod_lt. lia.
Qed.

Lemma Create_of_exit w (parameters : Parameters) gateway_ports log e :
  Create_at w parameters gateway_ports = (log, e) →
  Create w parameters gateway_ports = ptr_of_exit e
  ∧ Create_failure w parameters gateway_ports = failure e
  ∧ Create_log w parameters gateway_ports = log.
Proof. unfold Create, Create_failure, Create_log. by intros ->. Qed.

(** ** The bind address *)

(** C1: on a map that has the three keys, a service that [Create]
    returns is bound to 127.0.0.1 when [local_addr] is empty, to 0.0.0.0
    when it is "*" and gateway ports are enabled, to [local_addr] itself
    for any other text with gateway ports enabled, and to 127.0.0.1 for
    any non-empty [local_addr] (also "*") with gateway ports disabled;
    the warning is logged exactly in that last case, and neither the
    address nor the flag changes whether and how [Create] fails. *)
Theorem Create_bind_address w (parameters : Parameters) gateway_ports a lp rp :
  parameters !! "local_addr" = Some a →
  parameters !! "local_port" = Some lp →
  parameters !! "remote_port" = Some rp →
  (∀ svc, Create w parameters gateway_ports = Some svc →
     (a = "" → local_addr_ svc = "127.0.0.1")
     ∧ (a = "*" → gateway_ports = true → local_addr_ svc = "0.0.0.0")
     ∧ (a ≠ "" → a ≠ "*" → gateway_ports = true → local_addr_ svc = a)
     ∧ (a ≠ "" → gateway_ports = false → local_addr_ svc = "127.0.0.1"))
  ∧ ((warn, cannot_listen_without_gateway_ports a)
       ∈ Create_log w parameters gateway_ports
     ↔ a ≠ "" ∧ gateway_ports = false)
  ∧ Create_failure w parameters gateway_ports
    = Create_failure w (<["local_addr" := ""]> parameters) true.
Proof.
  intros Ha Hl Hr.
  assert (Ha' : <["local_addr" := ""]> parameters !! "local_addr" = Some "")
    by apply lookup_insert_eq.
  assert (Hl' : <["local_addr" := ""]> parameters !! "local_port" = Some lp)
    by (by rewrite lookup_insert_ne).
  assert (Hr' : <["local_addr" := ""]> parameters !! "remote_port" = Some rp)
    by (by rewrite lookup_insert_ne).
  pose proof (Create_at_present w _ gateway_ports _ _ _ Ha Hl Hr) as HC.
  pose proof (Create_at_present w _ true _ _ _ Ha' Hl' Hr') as HC'.
  rewrite (bind_address_spec _ _ _ Ha) in HC. cbv zeta in HC. simpl fst in HC.
  unfold Create, Create_log, Create_failure. rewrite HC, HC'. clear HC HC'.
  set (wlog := if negb (a =? "")%string && negb gateway_ports
               then [(warn, cannot_listen_without_gateway_ports a)] else []).
  assert (Hw : (warn, cannot_listen_without_gateway_ports a) ∈ wlog
               ↔ a ≠ "" ∧ gateway_ports = false).
  { subst wlog. destruct (String.eqb_spec a "") as [->|Hne]; simpl.
    - split; [intros H; by apply elem_of_nil in H | intros [? _]; done].
    - destruct gateway_ports; simpl.
      + split; [intros H; by apply elem_of_nil in H | intros [_ ?]; done].
      + split; [done | intros _; apply list_elem_of_here]. }
  assert (Hsp : (a = "" → spec_bind_address a gateway_ports = "127.0.0.1")
     ∧ (a = "*" → gateway_ports = true → spec_bind_address a gateway_ports = "0.0.0.0")
     ∧ (a ≠ "" → a ≠ "*" → gateway_ports = true → spec_bind_address a gateway_ports = a)
     ∧ (a ≠ "" → gateway_ports = false → spec_bind_address a gateway_ports = "127.0.0.1")).
  { unfold spec_bind_address. repeat split.
    - intros ->. done.
    - intros -> ->. done.
    - intros H1 H2 ->. by rewrite !decide_False.
    - intros H1 ->. by rewrite decide_False. }
  destruct (stoul w lp) as [e|l]; [| destruct (stoul w rp) as [e|r]];
    [| | destruct (65535 <? to_uint32 l)]; simpl.
  all: split; [intros svc Hsvc; try discriminate | split; [| reflexivity]].
  all: try (rewrite elem_of_app, Hw; split; [intros [?|H]; [done |] | by left];
            apply list_elem_of_singleton in H; discriminate).
  - injection Hsvc as <-. exact Hsp.
  - exact Hw.
Qed.

Lemma Create_bind_address_witness :
  let p := three_keys "192.0.2.1" "9000" "42" in
  p !! "local_addr" = Some "192.0.2.1"
  ∧ p !! "local_port" = Some "9000"
  ∧ p !! "remote_port" = Some "42"
  ∧ Create UL64 p false = Some (mkSocketsToFibers "127.0.0.1" 9000 42)
  ∧ ((warn, cannot_listen_without_gateway_ports "192.0.2.1") ∈ Create_log UL64 p false
     ↔ "192.0.2.1" ≠ "" ∧ false = false).
Proof.
  intros p.
  assert (H1 : p !! "local_addr" = Some "192.0.2.1") by reflexivity.
  assert (H2 : p !! "local_port" = Some "9000") by reflexivity.
  assert (H3 : p !! "remote_port" = Some "42") by reflexivity.
  split; [exact H1 | split; [exact H2 | split; [exact H3 | split; [reflexivity |]]]].
  exact (proj1 (proj2 (Create_bind_address UL64 p false _ _ _ H1 H2 H3))).
Defined.

(** ** Missing keys *)

(** C4: when [local_addr], [local_port] or [remote_port] is absent from
    the map, [Create] leaves by its first [return]: it fails with
    InvalidParameters, returns the null pointer (no service is
    constructed) and logs nothing. *)
Theorem Create_missing_key w (parameters : Parameters) gateway_ports :
  parameters !! "local_addr" = None ∨ parameters !! "local_port" = None
    ∨ parameters !! "remote_port" = None →
  Create_at w parameters gateway_ports = ([], exit_missing_key)
  ∧ Create_failure w parameters gateway_ports = Some InvalidParameters
  ∧ Create w parameters gateway_ports = None.
Proof.
  intros H.
  assert (HC : Create_at w parameters gateway_ports = ([], exit_missing_key)).
  { unfold Create_at.
    destruct H as [H | [H | H]]; rewrite (count_false _ _ H); simpl;
      repeat (destruct (count parameters _); simpl); reflexivity. }
  split; [exact HC |].
  destruct (Create_of_exit _ _ _ _ _ HC) as (-> & -> & _). done.
Qed.

Lemma Create_missing_key_witness :
  let p : Parameters := <["local_addr" := "*"]> (<["local_port" := "9000"]> ∅) in
  (p !! "local_addr" = None ∨ p !! "local_port" = None ∨ p !! "remote_port" = None)
  ∧ Create UL64 p true = None.
Proof.
  intros p.
  assert (H : p !! "local_addr" = None ∨ p !! "local_port" = None
              ∨ p !! "remote_port" = None) by (right; right; reflexivity).
  split; [exact H |].
  exact (proj2 (proj2 (Create_missing_key UL64 p true H))).
Defined.

(** ** One null pointer for every failure *)

(** C9: whenever [Create] fails, by a missing key, an unparseable port or
    a local port out of range, it returns the null pointer; two failing
    calls return the same value whatever their failure kinds. *)
Theorem Create_failures_indistinguishable
    w (parameters : Parameters) gateway_ports e
    w' (parameters' : Parameters) gateway_ports' e' :
  Create_failure w parameters gateway_ports = Some e →
  Create_failure w' parameters' gateway_ports' = Some e' →
  Create w parameters gateway_ports = None
  ∧ Create w parameters gateway_ports = Create w' parameters' gateway_ports'.
Proof.
  unfold Create_failure, Create.
  destruct (Create_at w parameters gateway_ports).2;
    destruct (Create_at w' parameters' gateway_ports').2; simpl; done.
Qed.

Lemma Create_failures_indistinguishable_witness :
  Create_failure UL64 (three_keys "" "x" "42") true = Some InvalidParameters
  ∧ Create_failure UL64 (three_keys "" "70000" "42") true = Some OutOfRange
  ∧ Create UL64 (three_keys "" "x" "42") true = None
  ∧ Create UL64 (three_keys "" "x" "42") true
    = Create UL64 (three_keys "" "70000" "42") true.
Proof.
  assert (H1 : Create_failure UL64 (three_keys "" "x" "42") true
               = Some InvalidParameters) by reflexivity.
  assert (H2 : Create_failure UL64 (three_keys "" "70000" "42") true
               = Some OutOfRange) by reflexivity.
  split; [exact H1 | split; [exact H2 |]].
  exact (Create_failures_indistinguishable _ _ _ _ _ _ _ _ H1 H2).
Defined.

(** ** The range of the ports *)

Lemma Create_ports_parsed w (parameters : Parameters) gateway_ports a lp rp l r :
  parameters !! "local_addr" = Some a →
  parameters !! "local_port" = Some lp →
  parameters !! "remote_port" = Some rp →
  stoul w lp = inr l → stoul w rp = inr r →
  Create_at w parameters gateway_ports =
    let log := (bind_address parameters gateway_ports).1 in
    if 65535 <? l mod 2 ^ 32
    then ((log ++ [(error, local_port_out_of_range (l mod 2 ^ 32))])%list,
          exit_port_range)
    else (log, exit_created
                 (mkSocketsToFibers (spec_bind_address a gateway_ports)
                    (l mod 2 ^ 32) (r mod 2 ^ 32))).
Proof.
  intros Ha Hl Hr Hsl Hsr.
  rewrite (Create_at_present _ _ _ _ _ _ Ha Hl Hr), Hsl, Hsr. reflexivity.
Qed.

(** With both ports parsed, [Create] fails on the range check exactly
    when the low 32 bits of the local port exceed 65535. *)
Lemma Create_local_port_range w (parameters : Parameters) gateway_ports a lp rp l r :
  parameters !! "local_addr" = Some a →
  parameters !! "local_port" = Some lp →
  parameters !! "remote_port" = Some rp →
  stoul w lp = inr l → stoul w rp = inr r →
  (Create_failure w parameters gateway_ports = Some OutOfRange
   ↔ 65535 < l mod 2 ^ 32)
  ∧ (Create_failure w parameters gateway_ports = None ↔ l mod 2 ^ 32 ≤ 65535).
Proof.
  intros Ha Hl Hr Hsl Hsr.
  pose proof (Create_ports_parsed _ _ gateway_ports _ _ _ _ _ Ha Hl Hr Hsl Hsr) as HC.
  cbv zeta in HC. unfold Create_failure.
  destruct (N.ltb_spec 65535 (l mod 2 ^ 32)) as [Hgt|Hle]; rewrite HC; simpl;
    split; split; first [done | lia].
Qed.

(** C3, at the failing input: with a 64-bit [unsigned long] the local
    port "4294967376" parses to 4294967376, above 65535, and [Create]
    still returns a service, listening on port 80; the range check sees
    the value only after it was narrowed to 32 bits. *)
Theorem Create_local_port_wraps :
  stoul UL64 "4294967376" = inr 4294967376
  ∧ 65535 < 4294967376
  ∧ Create_at UL64 (three_keys "" "4294967376" "1") true
    = ([], exit_created (mkSocketsToFibers "127.0.0.1" 80 1))
  ∧ Create_failure UL64 (three_keys "" "4294967376" "1") true = None.
Proof. repeat split. Qed.

(** The same input on a target with a 32-bit [unsigned long]: [stoul]
    throws and [Create] fails on the parse. *)
Example Create_local_port_wraps_UL32 :
  Create_at UL32 (three_keys "" "4294967376" "1") true
  = ([(error, cannot_extract_port_parameters)], exit_port_parse).
Proof. reflexivity. Qed.

(** The documented examples: port 70000 is out of range; without gateway
    ports a requested interface is replaced by loopback; with gateway
    ports "*" is the any-address. *)
Example Create_port_70000 :
  Create_at UL64 (three_keys "" "70000" "42") true
  = ([(error, local_port_out_of_range 70000)], exit_port_range).
Proof. reflexivity. Qed.

Example Create_without_gateway_ports :
  Create_at UL64 (three_keys "192.0.2.1" "9000" "42") false
  = ([(warn, cannot_listen_without_gateway_ports "192.0.2.1")],
     exit_created (mkSocketsToFibers "127.0.0.1" 9000 42)).
Proof. reflexivity. Qed.

Example Create_any_address :
  Create_at UL64 (three_keys "*" "9000" "42") true
  = ([], exit_created (mkSocketsToFibers "0.0.0.0" 9000 42)).
Proof. reflexivity. Qed.

(** A minus sign is negated in [unsigned long] and then narrowed. *)
Example Create_negative_port :
  Create_at UL64 (three_keys "" " -4294967216" "-1") true
  = ([], exit_created (mkSocketsToFibers "127.0.0.1" 80 4294967295)).
Proof. reflexivity. Qed.

(** C10: on a map whose other entries are accepted, every [remote_port]
    that [stoul] parses is accepted; the service holds the parsed value
    modulo 2^32, and nothing is logged on its account. *)
Theorem Create_remote_port_unchecked
    w (parameters : Parameters) gateway_ports a lp rp l r :
  parameters !! "local_addr" = Some a →
  parameters !! "local_port" = Some lp →
  parameters !! "remote_port" = Some rp →
  stoul w lp = inr l → l mod 2 ^ 32 ≤ 65535 →
  stoul w rp = inr r →
  ∃ svc, Create w parameters gateway_ports = Some svc
         ∧ remote_port_ svc = r mod 2 ^ 32
         ∧ Create_log w parameters gateway_ports
           = (bind_address parameters gateway_ports).1.
Proof.
  intros Ha Hl Hr Hsl Hle Hsr.
  pose proof (Create_ports_parsed _ _ gateway_ports _ _ _ _ _ Ha Hl Hr Hsl Hsr) as HC.
  cbv zeta in HC.
  destruct (N.ltb_spec 65535 (l mod 2 ^ 32)) as [Hgt|_]; [lia |].
  destruct (Create_of_exit _ _ _ _ _ HC) as (-> & _ & ->).
  eexists; repeat split.
Qed.

Lemma Create_remote_port_unchecked_witness :
  let p := three_keys "" "9000" "4294967297" in
  p !! "local_addr" = Some "" ∧ p !! "local_port" = Some "9000"
  ∧ p !! "remote_port" = Some "4294967297"
  ∧ stoul UL64 "9000" = inr 9000 ∧ 9000 mod 2 ^ 32 ≤ 65535
  ∧ stoul UL64 "4294967297" = inr 4294967297
  ∧ 2 ^ 32 - 1 < 4294967297
  ∧ Create UL64 p true = Some (mkSocketsToFibers "127.0.0.1" 9000 1)
  ∧ ∃ svc, Create UL64 p true = Some svc
           ∧ remote_port_ svc = 4294967297 mod 2 ^ 32
           ∧ Create_log UL64 p true = (bind_address p true).1.
Proof.
  intros p.
  assert (H1 : p !! "local_addr" = Some "") by reflexivity.
  assert (H2 : p !! "local_port" = Some "9000") by reflexivity.
  assert (H3 : p !! "remote_port" = Some "4294967297") by reflexivity.
  assert (H4 : stoul UL64 "9000" = inr 9000) by reflexivity.
  assert (H5 : 9000 mod 2 ^ 32 ≤ 65535) by (vm_compute; discriminate).
  assert (H6 : stoul UL64 "4294967297" = inr 4294967297) by reflexivity.
  repeat (split; [first [assumption | reflexivity] |]).
  exact (Create_remote_port_unchecked UL64 p true _ _ _ _ _ H1 H2 H3 H4 H5 H6).
Defined.

(** ** What [stoul] accepts *)

Lemma isdigit_first c rest :
  isdigit c = true →
  take_sign (skip_space (String c rest)) = (false, String c rest).
Proof.
  destruct c as [b0 b1 b2 b3 b4 b5 b6 b7].
  destruct b0, b1, b2, b3, b4, b5, b6, b7; intros H;
    first [discriminate H | reflexivity].
Qed.

Lemma digit_run_all s :
  forallb isdigit (list_ascii_of_string s) = true →
  digit_run s = list_ascii_of_string s.
Proof.
  induction s as [|c rest IH]; simpl; [done |].
  intros [Hc Hrest]%andb_prop. rewrite Hc. f_equal. by apply IH.
Qed.

Lemma subject_digits_well_formed s :
  well_formed_decimal s = true →
  (take_sign (skip_space s)).1 = false
  ∧ subject_digits s = list_ascii_of_string s
  ∧ list_ascii_of_string s ≠ [].
Proof.
  unfold well_formed_decimal, subject_digits.
  destruct s as [|c rest]; [done |].
  change (list_ascii_of_string (String c rest)) with (c :: list_ascii_of_string rest).
  intros H. pose proof H as [Hc Hrest]%andb_prop.
  rewrite (isdigit_first _ _ Hc). simpl fst; simpl snd.
  split; [done | split; [| done]].
  apply (digit_run_all (String c rest)). exact H.
Qed.

(** On a string of digits [stoul] returns its decimal value. *)
Lemma stoul_well_formed w s :
  well_formed_decimal s = true → decimal_value s ≤ ULONG_MAX w →
  stoul w s = inr (decimal_value s).
Proof.
  intros Hwf Hle. rewrite stoul_unfold.
  destruct (subject_digits_well_formed s Hwf) as (-> & -> & Hne).
  unfold decimal_value in *.
  destruct (list_ascii_of_string s) as [|c cs]; [done |].
  cbv zeta. destruct (N.ltb_spec (ULONG_MAX w) (digits_value (c :: cs) 0)); [lia | done].
Qed.

(** C2 as stated fails: "80abc" and "+42" are not
    well-formed non-negative decimal integers, and [Create] accepts them
    as the ports 80 and 42. *)
Lemma Create_accepts_malformed_ports :
  well_formed_decimal "80abc" = false
  ∧ well_formed_decimal "+42" = false
  ∧ Create_failure UL64 (three_keys "" "80abc" "+42") true ≠ Some InvalidParameters
  ∧ Create UL64 (three_keys "" "80abc" "+42") true
    = Some (mkSocketsToFibers "127.0.0.1" 80 42).
Proof. repeat split. discriminate. Qed.

(** C2, amended: on a map that has the three keys, [Create] reads both
    ports with [stoul]: white space, one optional sign, the longest run
    of digits, the rest ignored.  A port made of digits only, within
    [unsigned long], is read as its decimal value.  [Create] fails with
    InvalidParameters exactly when one of the two strings has no digit
    at that place or its digits exceed [unsigned long]; it then returns
    the null pointer. *)
Theorem Create_port_parse w (parameters : Parameters) gateway_ports a lp rp :
  parameters !! "local_addr" = Some a →
  parameters !! "local_port" = Some lp →
  parameters !! "remote_port" = Some rp →
  (Create_failure w parameters gateway_ports = Some InvalidParameters
   ↔ unparseable w lp ∨ unparseable w rp)
  ∧ (Create_failure w parameters gateway_ports = Some InvalidParameters →
     Create w parameters gateway_ports = None)
  ∧ (well_formed_decimal lp = true → well_formed_decimal rp = true →
     decimal_value lp ≤ ULONG_MAX w → decimal_value rp ≤ ULONG_MAX w →
     extract_ports w parameters
     = inr (to_uint32 (decimal_value lp), to_uint32 (decimal_value rp))).
Proof.
  intros Ha Hl Hr.
  pose proof (Create_at_present w _ gateway_ports _ _ _ Ha Hl Hr) as HC.
  cbv zeta in HC.
  split; [| split].
  - rewrite <- !stoul_error_iff. unfold Create_failure. rewrite HC.
    destruct (stoul w lp) as [e|l]; simpl.
    { split; [intros _; left; by eexists | done]. }
    destruct (stoul w rp) as [e|r]; simpl.
    { split; [intros _; right; by eexists | done]. }
    destruct (65535 <? to_uint32 l); simpl;
      (split; [done | intros [[e He]|[e He]]; discriminate]).
  - unfold Create_failure, Create.
    destruct (Create_at w parameters gateway_ports).2; simpl; done.
  - intros Hwl Hwr Hvl Hvr.
    rewrite (extract_ports_present _ _ _ _ Hl Hr).
    by rewrite (stoul_well_formed _ _ Hwl Hvl), (stoul_well_formed _ _ Hwr Hvr).
Qed.

Lemma Create_port_parse_witness :
  let p := three_keys "" "abc" "42" in
  p !! "local_addr" = Some "" ∧ p !! "local_port" = Some "abc"
  ∧ p !! "remote_port" = Some "42"
  ∧ (unparseable UL64 "abc" ∨ unparseable UL64 "42")
  ∧ Create UL64 p true = None.
Proof.
  intros p.
  assert (H1 : p !! "local_addr" = Some "") by reflexivity.
  assert (H2 : p !! "local_port" = Some "abc") by reflexivity.
  assert (H3 : p !! "remote_port" = Some "42") by reflexivity.
  assert (HF : Create_failure UL64 p true = Some InvalidParameters) by reflexivity.
  destruct (Create_port_parse UL64 p true _ _ _ H1 H2 H3) as (Hiff & Hnull & _).
  repeat (split; [assumption |]).
  split; [exact (proj1 Hiff HF) | exact (Hnull HF)].
Defined.

(** ** The creation request *)

Lemma GetCreateRequest_lookup kFactoryId a lp rp :
  let p := parameters (GetCreateRequest kFactoryId a lp rp) in
  p !! "local_addr" = Some a
  ∧ p !! "local_port" = Some (to_string lp)
  ∧ p !! "remote_port" = Some (to_string rp).
Proof.
  unfold GetCreateRequest, add_parameter. simpl.
  split; [| split].
  - rewrite !lookup_insert_ne by done. apply lookup_insert_eq.
  - rewrite lookup_insert_ne by done. apply lookup_insert_eq.
  - apply lookup_insert_eq.
Qed.

(** C5 as stated fails: the request built for the empty
    address yields a service bound to 127.0.0.1, not to the empty
    address. *)
Lemma GetCreateRequest_changes_address :
  Create UL64 (parameters (GetCreateRequest 0 "" 9000 42)) true
  = Some (mkSocketsToFibers "127.0.0.1" 9000 42)
  ∧ Create UL64 (parameters (GetCreateRequest 0 "" 9000 42)) true
    ≠ Some (mkSocketsToFibers "" 9000 42).
Proof. split; [reflexivity | discriminate]. Qed.

(** C5, amended: for every address, every local port up to 65535 and
    every 32-bit remote port, the request of [GetCreateRequest] carries
    the factory id and a map that [Create] accepts with gateway ports
    enabled; the service holds the same two ports, and the address
    itself unless it is empty (then 127.0.0.1) or "*" (then 0.0.0.0). *)
Theorem GetCreateRequest_Create w kFactoryId local_addr local_port remote_port :
  local_port ≤ 65535 → remote_port < 2 ^ 32 →
  let req := GetCreateRequest kFactoryId local_addr local_port remote_port in
  service_id req = kFactoryId
  ∧ Create w (parameters req) true
    = Some (mkSocketsToFibers
              (if decide (local_addr = "") then "127.0.0.1"
               else if decide (local_addr = "*") then "0.0.0.0" else local_addr)
              local_port remote_port)
  ∧ (local_addr ≠ "" → local_addr ≠ "*" →
     Create w (parameters req) true
     = Some (mkSocketsToFibers local_addr local_port remote_port)).
Proof.
  intros Hlp Hrp req.
  destruct (GetCreateRequest_lookup kFactoryId local_addr local_port remote_port)
    as (Ha & Hl & Hr). fold req in Ha, Hl, Hr.
  assert (Hsl : stoul w (to_string local_port) = inr local_port).
  { apply stoul_to_string. destruct w; simpl; lia. }
  assert (Hsr : stoul w (to_string remote_port) = inr remote_port).
  { apply stoul_to_string. destruct w; simpl; lia. }
  pose proof (Create_ports_parsed w _ true _ _ _ _ _ Ha Hl Hr Hsl Hsr) as HC.
  cbv zeta in HC.
  rewrite (N.mod_small local_port), (N.mod_small remote_port) in HC by lia.
  destruct (N.ltb_spec 65535 local_port) as [Hgt|_]; [lia |].
  destruct (Create_of_exit _ _ _ _ _ HC) as (HCr & _ & _).
  split; [reflexivity |]. rewrite HCr. simpl. unfold spec_bind_address.
  split; [reflexivity |].
  intros H1 H2. by rewrite !decide_False.
Qed.

Lemma GetCreateRequest_Create_witness :
  9000 ≤ 65535 ∧ 42 < 2 ^ 32
  ∧ Create UL32 (parameters (GetCreateRequest 7 "192.0.2.1" 9000 42)) true
    = Some (mkSocketsToFibers "192.0.2.1" 9000 42).
Proof.
  assert (H1 : 9000 ≤ 65535) by (vm_compute; discriminate).
  assert (H2 : 42 < 2 ^ 32) by reflexivity.
  split; [exact H1 | split; [exact H2 |]].
  exact (proj1 (proj2 (GetCreateRequest_Create UL32 7 "192.0.2.1" 9000 42 H1 H2))).
Defined.

(** * Properties of the running service *)

Import Runtime.

#[local] Set Warnings "-clear-no-such-hyp".

Section RuntimeFacts.

Implicit Types (s : Service) (id sock : positive) (sess : Session).

Lemma live_not_closed sess : live sess ↔ sess_state sess ≠ Closed.
Proof. unfold live. destruct (sess_state sess); naive_solver. Qed.

Lemma initial_inv cfg : Inv (initial cfg).
Proof.
  constructor; simpl; intros *.
  - rewrite lookup_empty. set_solver.
  - by rewrite lookup_empty.
  - rewrite lookup_empty. by intros [? ?].
  - set_solver.
  - by rewrite lookup_empty.
  - set_solver.
  - set_solver.
Qed.

Lemma set_acceptor_inv l p s : Inv s → Inv (set_acceptor l p s).
Proof. intros [H1 H2 H3 H4 H5 H6 H7]. by constructor. Qed.

(** [erase] of an identifier that is not registered changes nothing. *)
Lemma erase_absent id s : id ∉ registry s → erase id s = s.
Proof. intros H. unfold erase. by rewrite decide_False. Qed.

Lemma teardown_closed id s sess :
  sessions s !! id = Some sess → sess_state sess = Closed → teardown id s = s.
Proof. intros H1 H2. unfold teardown. by rewrite H1, H2. Qed.

Lemma teardown_unknown id s : sessions s !! id = None → teardown id s = s.
Proof. intros H. unfold teardown. by rewrite H. Qed.

Lemma teardown_live id s sess :
  Inv s → sessions s !! id = Some sess → sess_state sess ≠ Closed →
  teardown id s =
    mkService (config s) (listening s) (accept_pending s) (next_socket s)
      (open_sockets s ∖ {[tcp_socket sess]}) (connecting s)
      (open_channels s ∖ {[tcp_socket sess]})
      (<[id := mkSession (tcp_socket sess) Closed]> (sessions s))
      (registry s ∖ {[id]}) (next_id s) (id :: removals s).
Proof.
  intros HI Hs Hst.
  assert (Hin : id ∈ registry s) by (apply (inv_registry s HI); eauto).
  unfold teardown. rewrite Hs.
  destruct (sess_state sess) eqn:E; try done;
    unfold erase; simpl; by rewrite decide_True.
Qed.

Lemma teardown_inv id s : Inv s → Inv (teardown id s).
Proof.
  intros HI.
  destruct (sessions s !! id) as [sess|] eqn:Hs;
    [| by rewrite teardown_unknown].
  destruct (decide (sess_state sess = Closed)) as [Hc|Hc];
    [by rewrite (teardown_closed _ _ _ Hs Hc) |].
  rewrite (teardown_live _ _ _ HI Hs Hc).
  destruct HI as [H1 H2 H3 H4 H5 H6 H7].
  constructor; simpl.
  - intros id'. rewrite elem_of_difference, elem_of_singleton, H1.
    destruct (decide (id' = id)) as [->|Hne].
    + rewrite lookup_insert_eq. split; [naive_solver |].
      intros (sess' & [= <-] & Hst). done.
    + rewrite lookup_insert_ne by done. naive_solver.
  - intros id'. unfold removal_count in *. simpl.
    destruct (Pos.eq_dec id id') as [<-|Hne].
    + rewrite lookup_insert_eq. simpl.
      rewrite H2, Hs. by destruct (sess_state sess).
    + rewrite lookup_insert_ne by done. apply H2.
  - intros id' Hsome. apply H3.
    destruct (decide (id' = id)) as [->|Hne]; [by rewrite Hs |].
    by rewrite lookup_insert_ne in Hsome.
  - exact H4.
  - intros id' sess'.
    destruct (decide (id' = id)) as [->|Hne].
    + rewrite lookup_insert_eq. intros [= <-]. simpl. by apply (H5 id).
    + rewrite lookup_insert_ne by done. apply H5.
  - intros sock [Hin Hns%not_elem_of_singleton]%elem_of_difference.
    destruct (H6 _ Hin) as [?|(id' & sess' & Hl & Hst & Htcp)]; [by left | right].
    exists id', sess'. rewrite lookup_insert_ne; [done |].
    intros <-. congruence.
  - intros sock [Hin Hns%not_elem_of_singleton]%elem_of_difference.
    destruct (H7 _ Hin) as (id' & sess' & Hl & Hst & Htcp).
    exists id', sess'. rewrite lookup_insert_ne; [done |].
    intros <-. congruence.
Qed.

Lemma stopOne_inv id s : Inv s → Inv (stopOne id s).
Proof. intros HI. unfold stopOne. case_decide; [by apply teardown_inv | done]. Qed.

Lemma stop_ids_inv ids s : Inv s → Inv (stop_ids ids s).
Proof.
  revert s. induction ids as [|id ids IH]; intros s HI; [done |].
  apply IH. by apply stopOne_inv.
Qed.

Lemma start_inv bind_ok s : Inv s → Inv (start bind_ok s).1.
Proof.
  intros HI. unfold start.
  destruct (listening s), bind_ok; simpl; try done. by apply set_acceptor_inv.
Qed.

Lemma cancel_connects_inv s : Inv s → Inv (cancel_connects s).
Proof.
  intros [H1 H2 H3 H4 H5 H6 H7]. constructor; simpl.
  - exact H1.
  - exact H2.
  - exact H3.
  - intros sock Hin. by apply elem_of_empty in Hin.
  - intros id sess Hs. destruct (H5 _ _ Hs). split; [done | apply not_elem_of_empty].
  - intros sock [Hin Hnc]%elem_of_difference.
    destruct (H6 _ Hin) as [?|?]; [done | by right].
  - exact H7.
Qed.

Lemma stop_inv s : Inv s → Inv (stop s).1.
Proof.
  intros HI. apply stop_ids_inv. by apply cancel_connects_inv, set_acceptor_inv.
Qed.

Lemma SocketAcceptHandler_inv ok s : Inv s → Inv (SocketAcceptHandler ok s).
Proof.
  intros HI. unfold SocketAcceptHandler.
  destruct (listening s && accept_pending s), ok; try done.
  destruct HI as [H1 H2 H3 H4 H5 H6 H7].
  constructor; simpl; try done.
  - intros sock [->%elem_of_singleton|Hin]%elem_of_union; [lia |].
    specialize (H4 _ Hin). lia.
  - intros id sess Hs. destruct (H5 _ _ Hs) as [Hlt Hnc].
    split; [lia |].
    rewrite elem_of_union, elem_of_singleton. intros [Heq|?]; [lia | done].
  - intros sock [->%elem_of_singleton|Hin]%elem_of_union.
    + left. set_solver.
    + destruct (H6 _ Hin) as [?|?]; [left; set_solver | by right].
Qed.

Lemma FiberConnectHandler_ok sock s :
  sock ∈ connecting s →
  FiberConnectHandler sock true s =
    mkService (config s) (listening s) (accept_pending s) (next_socket s)
      (open_sockets s) (connecting s ∖ {[sock]}) ({[sock]} ∪ open_channels s)
      (<[next_id s := mkSession sock Relaying]> (sessions s))
      ({[next_id s]} ∪ registry s) (Pos.succ (next_id s)) (removals s).
Proof.
  intros Hin. unfold FiberConnectHandler. rewrite decide_True by done.
  unfold insert_session, set_state. simpl. by rewrite alter_insert_eq.
Qed.

Lemma FiberConnectHandler_fail sock s :
  sock ∈ connecting s →
  FiberConnectHandler sock false s =
    mkService (config s) (listening s) (accept_pending s) (next_socket s)
      (open_sockets s ∖ {[sock]}) (connecting s ∖ {[sock]}) (open_channels s)
      (sessions s) (registry s) (next_id s) (removals s).
Proof. intros Hin. unfold FiberConnectHandler. by rewrite decide_True. Qed.

Lemma FiberConnectHandler_idle sock ok s :
  sock ∉ connecting s → FiberConnectHandler sock ok s = s.
Proof. intros Hin. unfold FiberConnectHandler. by rewrite decide_False. Qed.

Lemma next_id_fresh s : Inv s → sessions s !! next_id s = None.
Proof.
  intros HI. destruct (sessions s !! next_id s) eqn:E; [| done].
  assert (next_id s < next_id s)%positive by (apply (inv_fresh_id s HI); eauto).
  lia.
Qed.

Lemma FiberConnectHandler_inv sock ok s :
  Inv s → Inv (FiberConnectHandler sock ok s).
Proof.
  intros HI.
  destruct (decide (sock ∈ connecting s)) as [Hin|Hin];
    [| by rewrite FiberConnectHandler_idle].
  pose proof (next_id_fresh s HI) as Hfresh.
  destruct HI as [H1 H2 H3 H4 H5 H6 H7].
  destruct ok.
  - rewrite (FiberConnectHandler_ok _ _ Hin). constructor; simpl.
    + intros id. rewrite elem_of_union, elem_of_singleton, H1.
      destruct (decide (id = next_id s)) as [->|Hne].
      * rewrite lookup_insert_eq. split; [| by left].
        intros _. by eexists.
      * rewrite lookup_insert_ne by done. naive_solver.
    + intros id. unfold removal_count in *. simpl. rewrite H2.
      destruct (decide (id = next_id s)) as [->|Hne].
      * by rewrite lookup_insert_eq, Hfresh.
      * by rewrite lookup_insert_ne.
    + intros id Hsome.
      destruct (decide (id = next_id s)) as [->|Hne]; [lia |].
      rewrite lookup_insert_ne in Hsome by done. specialize (H3 _ Hsome). lia.
    + intros sock' [Hin' _]%elem_of_difference. by apply H4.
    + intros id sess.
      destruct (decide (id = next_id s)) as [->|Hne].
      * rewrite lookup_insert_eq. intros [= <-]. simpl.
        split; [by apply H4 | set_solver].
      * rewrite lookup_insert_ne by done. intros Hs.
        destruct (H5 _ _ Hs). split; [done | set_solver].
    + intros sock' Hin'.
      destruct (decide (sock' = sock)) as [->|Hne].
      * right. exists (next_id s), (mkSession sock Relaying).
        by rewrite lookup_insert_eq.
      * destruct (H6 _ Hin') as [?|(id & sess & Hs & Hst & Htcp)];
          [left; set_solver | right].
        exists id, sess. rewrite lookup_insert_ne; [done | congruence].
    + intros sock' [->%elem_of_singleton|Hin']%elem_of_union.
      * exists (next_id s), (mkSession sock Relaying).
        by rewrite lookup_insert_eq.
      * destruct (H7 _ Hin') as (id & sess & Hs & Hst & Htcp).
        exists id, sess. rewrite lookup_insert_ne; [done | congruence].
  - rewrite (FiberConnectHandler_fail _ _ Hin). constructor; simpl; try done.
    + intros sock' [Hin' _]%elem_of_difference. by apply H4.
    + intros id sess Hs. destruct (H5 _ _ Hs). split; [done | set_solver].
    + intros sock' [Hin' Hne]%elem_of_difference.
      destruct (H6 _ Hin') as [?|?]; [left; set_solver | by right].
Qed.

Lemma step_inv s e : Inv s → Inv (step s e).
Proof.
  intros HI. destruct e; simpl.
  - by apply start_inv.
  - by apply stop_inv.
  - by apply stopOne_inv.
  - by apply SocketAcceptHandler_inv.
  - by apply FiberConnectHandler_inv.
  - by apply teardown_inv.
Qed.

Lemma run_inv evs s : Inv s → Inv (run evs s).
Proof.
  revert s. induction evs as [|e evs IH]; intros s HI; [done |].
  apply IH. by apply step_inv.
Qed.

Lemma run_app evs evs' s : run (evs ++ evs') s = run evs' (run evs s).
Proof. apply fold_left_app. Qed.

(** Every state the event loop reaches from a created service satisfies
    the invariant. *)
Lemma reachable_inv cfg evs : Inv (run evs (initial cfg)).
Proof. apply run_inv, initial_inv. Qed.

(** *** Stopping sessions *)

Lemma teardown_frame id s :
  listening (teardown id s) = listening s
  ∧ accept_pending (teardown id s) = accept_pending s
  ∧ next_socket (teardown id s) = next_socket s
  ∧ connecting (teardown id s) = connecting s.
Proof.
  unfold teardown, erase.
  destruct (sessions s !! id) as [sess|]; [| done].
  destruct (sess_state sess); simpl; try done; by case_decide.
Qed.

Lemma stop_ids_frame ids s :
  listening (stop_ids ids s) = listening s
  ∧ accept_pending (stop_ids ids s) = accept_pending s
  ∧ next_socket (stop_ids ids s) = next_socket s
  ∧ connecting (stop_ids ids s) = connecting s.
Proof.
  revert s. induction ids as [|id ids IH]; intros s; [done |].
  simpl. destruct (IH (stopOne id s)) as (-> & -> & -> & ->).
  unfold stopOne. case_decide; [apply teardown_frame | done].
Qed.

Lemma stopOne_registry id s :
  Inv s → registry (stopOne id s) = registry s ∖ {[id]}.
Proof.
  intros HI. unfold stopOne. case_decide as Hin; [| set_solver].
  destruct (proj1 (inv_registry s HI id) Hin) as (sess & Hs & Hst).
  by rewrite (teardown_live _ _ _ HI Hs Hst).
Qed.

Lemma stop_ids_registry ids s id :
  Inv s → id ∈ registry (stop_ids ids s) ↔ id ∈ registry s ∧ id ∉ ids.
Proof.
  revert s. induction ids as [|id0 ids IH]; intros s HI; simpl.
  - rewrite elem_of_nil. tauto.
  - rewrite IH by (by apply stopOne_inv).
    rewrite (stopOne_registry _ _ HI), elem_of_difference, elem_of_singleton,
      not_elem_of_cons. tauto.
Qed.

Lemma stopAll_registry s : Inv s → registry (stopAll s) = ∅.
Proof.
  intros HI. apply set_eq. intros id. unfold stopAll.
  rewrite (stop_ids_registry _ _ _ HI), elem_of_elements. set_solver.
Qed.

Lemma stop_registry s : Inv s → registry (stop s).1 = ∅.
Proof.
  intros HI. apply stopAll_registry. by apply cancel_connects_inv, set_acceptor_inv.
Qed.

Lemma stopAll_empty s : registry s = ∅ → stopAll s = s.
Proof. intros H. unfold stopAll. by rewrite H, elements_empty. Qed.

Lemma set_acceptor_same s :
  set_acceptor (listening s) (accept_pending s) s = s.
Proof. by destruct s. Qed.

(** Once the registry is empty every session is closed and holds no open
    endpoint. *)
Lemma drained_sessions s :
  Inv s → registry s = ∅ →
  open_channels s = ∅
  ∧ open_sockets s ⊆ connecting s
  ∧ ∀ id sess, sessions s !! id = Some sess →
      sess_state sess = Closed ∧ tcp_socket sess ∉ open_sockets s.
Proof.
  intros HI Hreg.
  assert (Hclosed : ∀ id sess, sessions s !! id = Some sess →
                               sess_state sess = Closed).
  { intros id sess Hs. destruct (decide (sess_state sess = Closed)); [done |].
    assert (id ∈ registry s) by (apply (inv_registry s HI); eauto).
    set_solver. }
  assert (Hsub : open_sockets s ⊆ connecting s).
  { intros sock Hin.
    destruct (inv_open_sockets s HI _ Hin) as [?|(id & sess & Hs & Hst & _)];
      [done |]. by rewrite (Hclosed _ _ Hs) in Hst. }
  split; [| split; [done |]].
  - apply set_eq. intros sock. split; [| set_solver].
    intros Hin. destruct (inv_open_channels s HI _ Hin) as (id & sess & Hs & Hst & _).
    by rewrite (Hclosed _ _ Hs) in Hst.
  - intros id sess Hs. split; [by eapply Hclosed |].
    intros Hin. apply Hsub in Hin.
    by destruct (inv_session_socket s HI _ _ Hs).
Qed.

(** *** Discarded sockets *)

Lemma teardown_discarded sock id s :
  discarded sock s → discarded sock (teardown id s).
Proof.
  intros (Hlt & Hc & Ho & Hs). unfold teardown, erase.
  destruct (sessions s !! id) as [sess|] eqn:E; [| done].
  assert (Hd : discarded sock
            (set_sessions (<[id := mkSession (tcp_socket sess) Closed]> (sessions s))
               (set_endpoints (next_socket s) (open_sockets s ∖ {[tcp_socket sess]})
                  (connecting s) (open_channels s ∖ {[tcp_socket sess]}) s))).
  { repeat split; simpl; [done | done | set_solver |].
    intros id' sess'. destruct (decide (id' = id)) as [->|Hne].
    - rewrite lookup_insert_eq. intros [= <-]. simpl. by apply (Hs id).
    - rewrite lookup_insert_ne by done. apply Hs. }
  destruct (sess_state sess); try done; simpl; by case_decide.
Qed.

Lemma stop_ids_discarded sock ids s :
  discarded sock s → discarded sock (stop_ids ids s).
Proof.
  revert s. induction ids as [|id ids IH]; intros s Hd; [done |].
  apply IH. unfold stopOne. case_decide; [by apply teardown_discarded | done].
Qed.

Lemma cancel_connects_discarded sock s :
  discarded sock s → discarded sock (cancel_connects s).
Proof.
  intros (Hlt & Hc & Ho & Hs).
  repeat split; simpl; [done | apply not_elem_of_empty | set_solver | done].
Qed.

Lemma step_discarded sock s e : discarded sock s → discarded sock (step s e).
Proof.
  intros Hd. destruct e as [b| |id|ok|sock' ok|id]; simpl.
  - unfold start. by destruct (listening s), b.
  - apply stop_ids_discarded.
    by apply (cancel_connects_discarded sock (set_acceptor false false s)).
  - unfold stopOne. case_decide; [by apply teardown_discarded | done].
  - destruct Hd as (Hlt & Hc & Ho & Hs). unfold SocketAcceptHandler.
    destruct (listening s && accept_pending s), ok; try done.
    repeat split; simpl; [lia | | | done];
      rewrite elem_of_union, elem_of_singleton; intros [Heq|?]; (lia || done).
  - destruct (decide (sock' ∈ connecting s)) as [Hin|Hin];
      [| by rewrite FiberConnectHandler_idle].
    destruct Hd as (Hlt & Hc & Ho & Hs).
    destruct ok.
    + rewrite (FiberConnectHandler_ok _ _ Hin).
      repeat split; simpl; [done | set_solver | done |].
      intros id sess. destruct (decide (id = next_id s)) as [->|Hne].
      * rewrite lookup_insert_eq. intros [= <-]. simpl. by intros ->.
      * rewrite lookup_insert_ne by done. apply Hs.
    + rewrite (FiberConnectHandler_fail _ _ Hin).
      repeat split; simpl; [done | set_solver | set_solver | done].
  - by apply teardown_discarded.
Qed.

Lemma run_discarded sock evs s : discarded sock s → discarded sock (run evs s).
Proof.
  revert s. induction evs as [|e evs IH]; intros s Hd; [done |].
  apply IH. by apply step_discarded.
Qed.

Lemma teardown_sessions_persist id id' s :
  is_Some (sessions s !! id') → is_Some (sessions (teardown id s) !! id').
Proof.
  intros Hsome. unfold teardown, erase.
  destruct (sessions s !! id) as [sess|] eqn:E; [| done].
  assert (is_Some (<[id := mkSession (tcp_socket sess) Closed]> (sessions s) !! id')).
  { rewrite lookup_insert_is_Some. destruct (decide (id = id')); auto. }
  destruct (sess_state sess); try done; simpl; by case_decide.
Qed.

Lemma stop_ids_sessions_persist ids id' s :
  is_Some (sessions s !! id') → is_Some (sessions (stop_ids ids s) !! id').
Proof.
  revert s. induction ids as [|id ids IH]; intros s Hs; [done |].
  apply IH. unfold stopOne. case_decide; [by apply teardown_sessions_persist | done].
Qed.

(** After [stop] every session the service constructed is closed and
    was taken out of the registry once. *)
Lemma stop_closes id s :
  Inv s → is_Some (sessions s !! id) →
  ∃ sess, sessions (stop s).1 !! id = Some sess
          ∧ sess_state sess = Closed
          ∧ removal_count id (stop s).1 = 1%nat.
Proof.
  intros HI Hsome.
  pose proof (stop_inv s HI) as HI1.
  assert (Hreg : registry (stop s).1 = ∅) by (by apply stop_registry).
  assert (Hsome1 : is_Some (sessions (stop s).1 !! id))
    by (by apply stop_ids_sessions_persist).
  destruct Hsome1 as [sess Hs]. exists sess.
  destruct (drained_sessions _ HI1 Hreg) as (_ & _ & Hcl).
  destruct (Hcl _ _ Hs) as [Hc _].
  split; [done | split; [done |]].
  by rewrite (inv_removed _ HI1), Hs, Hc.
Qed.

Lemma cancel_connects_same s : connecting s = ∅ → cancel_connects s = s.
Proof.
  intros Hc. unfold cancel_connects. rewrite Hc, difference_empty_L.
  rewrite <- Hc. by destruct s.
Qed.

Lemma stop_noop s :
  listening s = false → accept_pending s = false → connecting s = ∅ →
  registry s = ∅ →
  stop s = (s, success).
Proof.
  intros Hl Hp Hc Hr. unfold stop.
  rewrite <- Hl at 1. rewrite <- Hp at 1. rewrite set_acceptor_same.
  rewrite (cancel_connects_same _ Hc).
  by rewrite (stopAll_empty _ Hr).
Qed.

(** A service on which no [start] succeeded is still the one [Create]
    returned. *)
Lemma never_started cfg evs :
  Forall (λ e, e ≠ ev_start true) evs → run evs (initial cfg) = initial cfg.
Proof.
  induction 1 as [|e evs He _ IH]; [done |].
  simpl. enough (step (initial cfg) e = initial cfg) as -> by done.
  destruct e as [[]| |id|ok|sock ok|id]; simpl; done.
Qed.

(** What [stop] leaves behind. *)
Lemma stopped_state s :
  Inv s →
  listening (stop s).1 = false
  ∧ accept_pending (stop s).1 = false
  ∧ connecting (stop s).1 = ∅
  ∧ registry (stop s).1 = ∅
  ∧ open_sockets (stop s).1 = ∅
  ∧ open_channels (stop s).1 = ∅
  ∧ ∀ id sess, sessions (stop s).1 !! id = Some sess → sess_state sess = Closed.
Proof.
  intros HI.
  pose proof (stop_inv s HI) as HI1.
  pose proof (stop_registry s HI) as Hreg.
  destruct (stop_ids_frame
              (elements (registry (cancel_connects (set_acceptor false false s))))
              (cancel_connects (set_acceptor false false s)))
    as (Hl & Hp & _ & Hc).
  change (listening (stop s).1 = false) in Hl.
  change (accept_pending (stop s).1 = false) in Hp.
  change (connecting (stop s).1 = ∅) in Hc.
  destruct (drained_sessions _ HI1 Hreg) as (Hch & Hsub & Hcl).
  repeat (split; [done |]).
  split; [| split; [done | intros id sess Hs; by destruct (Hcl _ _ Hs)]].
  apply set_eq. intros sock. split; [| set_solver].
  intros Hin. apply Hsub in Hin. by rewrite Hc in Hin.
Qed.

(** A stopped service ignores everything but a successful [start]. *)
Lemma stopped_step s e :
  Inv s → listening s = false → accept_pending s = false →
  connecting s = ∅ → registry s = ∅ →
  e ≠ ev_start true → step s e = s.
Proof.
  intros HI Hl Hp Hc Hr He.
  destruct e as [[]| |id|ok|sock ok|id]; cbn [step].
  - done.
  - unfold start. by rewrite Hl.
  - by rewrite stop_noop.
  - unfold StopSession, stopOne. cbn [fst].
    rewrite decide_False; [done | rewrite Hr; set_solver].
  - unfold SocketAcceptHandler. by rewrite Hl.
  - apply FiberConnectHandler_idle. rewrite Hc. set_solver.
  - destruct (sessions s !! id) as [sess|] eqn:Hs; [| by apply teardown_unknown].
    apply (teardown_closed _ _ _ Hs).
    destruct (decide (sess_state sess = Closed)) as [|Hn]; [done |].
    assert (id ∈ registry s) by (apply (inv_registry s HI); eauto).
    set_solver.
Qed.

Lemma stopped_inert s evs :
  Inv s → listening s = false → accept_pending s = false →
  connecting s = ∅ → registry s = ∅ →
  Forall (λ e, e ≠ ev_start true) evs → run evs s = s.
Proof.
  intros HI Hl Hp Hc Hr. induction 1 as [|e evs He _ IH]; [done |].
  simpl. by rewrite (stopped_step s e).
Qed.

End RuntimeFacts.

(** ** The registry invariant *)

(** C6: in every state the event loop reaches, a session is in the
    registry exactly when its state is Connecting or Relaying; a closed
    session was removed from the registry exactly once and no identifier
    was ever removed twice; [erase] of an absent identifier changes
    nothing; and a session's own teardown and [stop], in either order,
    remove it once. *)
Theorem registry_invariant cfg evs :
  let s := run evs (initial cfg) in
  (∀ id sess, sessions s !! id = Some sess → (id ∈ registry s ↔ live sess))
  ∧ (∀ id, id ∈ registry s → is_Some (sessions s !! id))
  ∧ (∀ id sess, sessions s !! id = Some sess →
       (sess_state sess = Closed ↔ removal_count id s = 1%nat)
       ∧ (live sess ↔ removal_count id s = 0%nat))
  ∧ (∀ id, (removal_count id s ≤ 1)%nat)
  ∧ (∀ id, id ∉ registry s → erase id s = s)
  ∧ (∀ id, is_Some (sessions s !! id) →
       removal_count id (run [ev_relay_end id; ev_stop] s) = 1%nat
       ∧ removal_count id (run [ev_stop; ev_relay_end id] s) = 1%nat
       ∧ (id ∉ registry (run [ev_relay_end id; ev_stop] s))
       ∧ (id ∉ registry (run [ev_stop; ev_relay_end id] s))).
Proof.
  intros s. pose proof (reachable_inv cfg evs) as HI. fold s in HI.
  split; [| split; [| split; [| split; [| split]]]].
  - intros id sess Hs. rewrite live_not_closed, (inv_registry s HI), Hs.
    naive_solver.
  - intros id Hin. apply (inv_registry s HI) in Hin as (sess & Hs & _). eauto.
  - intros id sess Hs. rewrite live_not_closed, (inv_removed s HI), Hs.
    destruct (sess_state sess); naive_solver.
  - intros id. rewrite (inv_removed s HI).
    destruct (sessions s !! id) as [sess|]; [destruct (sess_state sess) |]; lia.
  - intros id. apply erase_absent.
  - intros id Hsome.
    change (run [ev_relay_end id; ev_stop] s) with (stop (teardown id s)).1.
    change (run [ev_stop; ev_relay_end id] s) with (teardown id (stop s).1).
    assert (HI2 : Inv (teardown id s)) by (by apply teardown_inv).
    assert (Hsome2 : is_Some (sessions (teardown id s) !! id))
      by (by apply teardown_sessions_persist).
    destruct (stop_closes id _ HI2 Hsome2) as (sess2 & Hs2 & Hc2 & Hr2).
    destruct (stop_closes id _ HI Hsome) as (sess1 & Hs1 & Hc1 & Hr1).
    rewrite (teardown_closed _ _ _ Hs1 Hc1).
    assert (R1 : registry (stop s).1 = ∅) by (by apply stop_registry).
    assert (R2 : registry (stop (teardown id s)).1 = ∅) by (by apply stop_registry).
    rewrite R1, R2. set_solver.
Qed.

Lemma registry_invariant_witness :
  let cfg := mkSocketsToFibers "127.0.0.1" 9000 42 in
  let s := run [ev_start true; ev_accept true; ev_accept true;
                ev_fiber_connect 1 true; ev_fiber_connect 2 true;
                ev_relay_end 1; ev_relay_end 1; ev_stop_session 1]
             (initial cfg) in
  sessions s !! 1%positive = Some (mkSession 1 Closed)
  ∧ sessions s !! 2%positive = Some (mkSession 2 Relaying)
  ∧ removal_count 1 s = 1%nat
  ∧ (1%positive ∉ registry s)
  ∧ 2%positive ∈ registry s
  ∧ removal_count 2 (run [ev_stop; ev_relay_end 2] s) = 1%nat.
Proof.
  intros cfg s.
  assert (E1 : sessions s !! 1%positive = Some (mkSession 1 Closed))
    by (vm_compute; reflexivity).
  assert (E2 : sessions s !! 2%positive = Some (mkSession 2 Relaying))
    by (vm_compute; reflexivity).
  destruct (registry_invariant cfg
              [ev_start true; ev_accept true; ev_accept true;
               ev_fiber_connect 1 true; ev_fiber_connect 2 true;
               ev_relay_end 1; ev_relay_end 1; ev_stop_session 1])
    as (Hreg & _ & Hrem & _ & _ & Hrace).
  split; [exact E1 | split; [exact E2 |]].
  split; [exact (proj1 (proj1 (Hrem _ _ E1)) eq_refl) |].
  split; [intros Hin; destruct (proj1 (Hreg _ _ E1) Hin); discriminate |].
  split; [exact (proj2 (Hreg _ _ E2) (or_intror eq_refl)) |].
  exact (proj1 (proj2 (Hrace 2%positive (ex_intro _ _ E2)))).
Defined.

(** ** The lifecycle *)

(** C7: in every reachable state [stop] reports success and releases
    everything: the listening endpoint is closed with no accept pending,
    the channel opens in flight are cancelled, the registry is empty,
    every session is closed, and no socket and no channel is left open.
    A second [stop] changes nothing and reports success; so does every
    completion that arrives afterwards, until a [start] succeeds; and so
    does [stop] on a service on which no [start] succeeded. *)
Theorem stop_idempotent cfg evs :
  let s := run evs (initial cfg) in
  let s1 := (stop s).1 in
  (stop s).2 = success
  ∧ listening s1 = false ∧ accept_pending s1 = false
  ∧ registry s1 = ∅
  ∧ (∀ id sess, sessions s1 !! id = Some sess →
       sess_state sess = Closed ∧ tcp_socket sess ∉ open_sockets s1)
  ∧ (∀ id, is_Some (sessions s !! id) → is_Some (sessions s1 !! id))
  ∧ open_channels s1 = ∅
  ∧ open_sockets s1 = ∅
  ∧ connecting s1 = ∅
  ∧ stop s1 = (s1, success)
  ∧ (∀ evs', Forall (λ e, e ≠ ev_start true) evs' → run evs' s1 = s1)
  ∧ (Forall (λ e, e ≠ ev_start true) evs → stop s = (s, success)).
Proof.
  intros s s1. pose proof (reachable_inv cfg evs) as HI. fold s in HI.
  assert (HI1 : Inv s1) by (by apply stop_inv).
  destruct (stopped_state s HI) as (Hl & Hp & Hc & Hreg & Ho & Hch & _).
  fold s1 in Hl, Hp, Hc, Hreg, Ho, Hch.
  destruct (drained_sessions _ HI1 Hreg) as (_ & _ & Hcl).
  split; [done |].
  repeat (split; [done |]).
  split; [intros id Hs;
          apply (stop_ids_sessions_persist _ id
                   (cancel_connects (set_acceptor false false s)));
          exact Hs |].
  repeat (split; [done |]).
  split; [by apply stop_noop |].
  split; [intros evs' Hns; by apply stopped_inert |].
  intros Hns. subst s. rewrite (never_started _ _ Hns).
  apply stop_noop; done.
Qed.

Lemma stop_idempotent_witness :
  let cfg := mkSocketsToFibers "127.0.0.1" 9000 42 in
  let s := run [ev_start true; ev_accept true; ev_accept true;
                ev_fiber_connect 1 true]
             (initial cfg) in
  size (registry s) = 1%nat
  ∧ 2%positive ∈ connecting s
  ∧ (stop s).2 = success
  ∧ registry (stop s).1 = ∅
  ∧ open_sockets (stop s).1 = ∅
  ∧ stop (stop s).1 = ((stop s).1, success)
  ∧ run [ev_fiber_connect 2 true; ev_relay_end 1; ev_stop] (stop s).1 = (stop s).1.
Proof.
  intros cfg s.
  destruct (stop_idempotent cfg
              [ev_start true; ev_accept true; ev_accept true;
               ev_fiber_connect 1 true])
    as (Hec & _ & _ & Hreg & _ & _ & _ & Ho & _ & Hagain & Hinert & _).
  split; [vm_compute; reflexivity |].
  split; [vm_compute; reflexivity |].
  split; [exact Hec | split; [exact Hreg | split; [exact Ho | split; [exact Hagain |]]]].
  apply Hinert. repeat constructor; discriminate.
Defined.

(** ** A failed channel open *)

(** C8: when the channel open for an accepted socket fails, the handler
    closes the socket, leaves the registry and the sessions as they
    were, and has no channel open in flight for it; whatever happens
    afterwards, the socket stays closed, no channel open is started for
    it again, and no session, hence no registry entry, is ever made for
    it. *)
Theorem failed_connect_discards cfg evs sock :
  let s := run evs (initial cfg) in
  sock ∈ connecting s →
  let s' := FiberConnectHandler sock false s in
  (sock ∉ open_sockets s')
  ∧ (sock ∉ connecting s')
  ∧ registry s' = registry s
  ∧ sessions s' = sessions s
  ∧ ∀ evs', let s'' := run evs' s' in
      (sock ∉ open_sockets s'')
      ∧ (sock ∉ connecting s'')
      ∧ (sock ∉ open_channels s'')
      ∧ ∀ id sess, sessions s'' !! id = Some sess → tcp_socket sess ≠ sock.
Proof.
  intros s Hin s'. pose proof (reachable_inv cfg evs) as HI. fold s in HI.
  assert (Hd : discarded sock s').
  { subst s'. rewrite (FiberConnectHandler_fail _ _ Hin).
    repeat split; simpl.
    - by apply (inv_connecting s HI).
    - set_solver.
    - set_solver.
    - intros id sess Hs ?. destruct (inv_session_socket s HI _ _ Hs). congruence. }
  assert (Hs' : s' = FiberConnectHandler sock false s) by done.
  rewrite (FiberConnectHandler_fail _ _ Hin) in Hs'.
  destruct Hd as (Hlt & Hc & Ho & Hs).
  split; [done | split; [done | split; [by rewrite Hs' | split; [by rewrite Hs' |]]]].
  intros evs' s''.
  assert (HI' : Inv s'') by (apply run_inv; by apply FiberConnectHandler_inv).
  destruct (run_discarded sock evs' s' (conj Hlt (conj Hc (conj Ho Hs))))
    as (_ & Hc' & Ho' & Hs'').
  split; [done | split; [done | split; [| done]]].
  intros Hch. destruct (inv_open_channels _ HI' _ Hch) as (id & sess & Hl & _ & Htcp).
  by apply (Hs'' _ _ Hl).
Qed.

Lemma failed_connect_discards_witness :
  let cfg := mkSocketsToFibers "127.0.0.1" 9000 42 in
  let s := run [ev_start true; ev_accept true] (initial cfg) in
  let s' := FiberConnectHandler 1 false s in
  1%positive ∈ connecting s
  ∧ (1%positive ∉ open_sockets s')
  ∧ registry s' = registry s
  ∧ ∀ id sess,
      sessions (run [ev_accept true; ev_fiber_connect 2 true;
                     ev_fiber_connect 1 true] s') !! id = Some sess →
      tcp_socket sess ≠ 1%positive.
Proof.
  intros cfg s s'.
  assert (Hin : 1%positive ∈ connecting s) by (vm_compute; reflexivity).
  destruct (failed_connect_discards cfg [ev_start true; ev_accept true] 1 Hin)
    as (Ho & _ & Hr & _ & Hlater).
  split; [exact Hin | split; [exact Ho | split; [exact Hr |]]].
  exact (proj2 (proj2 (proj2
    (Hlater [ev_accept true; ev_fiber_connect 2 true; ev_fiber_connect 1 true])))).
Defined.

(** * Further properties of the factory *)

Section FactoryFacts.

Implicit Types (parameters : Parameters) (w : ULongWidth).

(** ** What [Create] reads *)

Lemma Create_at_ext w parameters parameters' gateway_ports :
  parameters !! "local_addr" = parameters' !! "local_addr" →
  parameters !! "local_port" = parameters' !! "local_port" →
  parameters !! "remote_port" = parameters' !! "remote_port" →
  Create_at w parameters gateway_ports = Create_at w parameters' gateway_ports.
Proof.
  intros Ha Hl Hr.
  unfold Create_at, count, bind_address, extract_ports, at_.
  by rewrite Ha, Hl, Hr.
Qed.

Lemma Create_at_missing w parameters gateway_ports :
  parameters !! "local_addr" = None ∨ parameters !! "local_port" = None
    ∨ parameters !! "remote_port" = None →
  Create_at w parameters gateway_ports = ([], exit_missing_key).
Proof.
  intros H. unfold Create_at.
  destruct H as [H | [H | H]]; rewrite (count_false _ _ H); simpl;
    repeat (destruct (count parameters _); simpl); reflexivity.
Qed.

Lemma keys_present_or_missing parameters :
  (∃ a lp rp, parameters !! "local_addr" = Some a
              ∧ parameters !! "local_port" = Some lp
              ∧ parameters !! "remote_port" = Some rp)
  ∨ (parameters !! "local_addr" = None ∨ parameters !! "local_port" = None
     ∨ parameters !! "remote_port" = None).
Proof.
  destruct (parameters !! "local_addr") as [a|]; [| right; by left].
  destruct (parameters !! "local_port") as [lp|]; [| right; right; by left].
  destruct (parameters !! "remote_port") as [rp|]; [| right; right; by right].
  left. by exists a, lp, rp.
Qed.

Lemma spec_bind_address_nonempty a gateway_ports :
  spec_bind_address a gateway_ports ≠ "".
Proof.
  unfold spec_bind_address.
  destruct (decide (a = "")); [done |].
  destruct gateway_ports; [| done].
  destruct (decide (a = "*")); done.
Qed.

(** X1: a service that [Create] returns came from a map with the three
    keys, listens on a port of at most 65535, holds a remote port below
    2^32 and a bind address that is not empty; without gateway ports the
    address is 127.0.0.1. *)
Theorem Create_service_well_formed w parameters gateway_ports svc :
  Create w parameters gateway_ports = Some svc →
  local_port_ svc ≤ 65535
  ∧ remote_port_ svc < 2 ^ 32
  ∧ local_addr_ svc ≠ ""
  ∧ (gateway_ports = false → local_addr_ svc = "127.0.0.1")
  ∧ is_Some (parameters !! "local_addr")
  ∧ is_Some (parameters !! "local_port")
  ∧ is_Some (parameters !! "remote_port").
Proof.
  unfold Create.
  destruct (keys_present_or_missing parameters)
    as [(a & lp & rp & Ha & Hl & Hr) | Hmiss];
    [| by rewrite (Create_at_missing _ _ _ Hmiss)].
  rewrite (Create_at_present _ _ _ _ _ _ Ha Hl Hr), Ha, Hl, Hr. cbv zeta.
  destruct (stoul w lp) as [e|l]; [done |].
  destruct (stoul w rp) as [e|r]; [done |].
  destruct (N.ltb_spec 65535 (to_uint32 l)) as [Hgt|Hle]; [done |].
  simpl. intros [= <-]. simpl.
  split; [done |].
  split; [unfold to_uint32; apply N.mod_lt; lia |].
  split; [apply spec_bind_address_nonempty |].
  split; [| by eauto].
  intros ->. unfold spec_bind_address. by destruct (decide (a = "")).
Qed.

Lemma Create_service_well_formed_witness :
  Create UL64 (three_keys "*" "80abc" "4294967297") false
  = Some (mkSocketsToFibers "127.0.0.1" 80 1)
  ∧ 80 ≤ 65535 ∧ 1 < 2 ^ 32.
Proof.
  assert (H : Create UL64 (three_keys "*" "80abc" "4294967297") false
              = Some (mkSocketsToFibers "127.0.0.1" 80 1)) by reflexivity.
  destruct (Create_service_well_formed _ _ _ _ H) as (H1 & H2 & _).
  split; [exact H | split; [exact H1 | exact H2]].
Defined.

(** X2: [Create] reads the three keys and nothing else: two maps that
    agree on them give the same log and the same result, so an entry
    under any other key changes nothing. *)
Theorem Create_other_keys_ignored w parameters gateway_ports key value :
  key ≠ "local_addr" → key ≠ "local_port" → key ≠ "remote_port" →
  Create_at w (<[key := value]> parameters) gateway_ports
  = Create_at w parameters gateway_ports
  ∧ Create_at w (delete key parameters) gateway_ports
    = Create_at w parameters gateway_ports.
Proof.
  intros H1 H2 H3. split.
  - apply Create_at_ext; by rewrite lookup_insert_ne.
  - apply Create_at_ext; by rewrite lookup_delete_ne.
Qed.

Lemma Create_other_keys_ignored_witness :
  "local_host" ≠ "local_addr" ∧ "local_host" ≠ "local_port"
  ∧ "local_host" ≠ "remote_port"
  ∧ Create_at UL64 (<["local_host" := "0.0.0.0"]> (three_keys "" "9000" "42")) true
    = Create_at UL64 (three_keys "" "9000" "42") true.
Proof.
  assert (H1 : "local_host" ≠ "local_addr") by discriminate.
  assert (H2 : "local_host" ≠ "local_port") by discriminate.
  assert (H3 : "local_host" ≠ "remote_port") by discriminate.
  repeat (split; [assumption |]).
  exact (proj1 (Create_other_keys_ignored UL64 _ true _ "0.0.0.0" H1 H2 H3)).
Defined.

(** ** What [Create] logs *)

Lemma bind_address_log_warn parameters gateway_ports m :
  (error, m) ∉ (bind_address parameters gateway_ports).1.
Proof.
  unfold bind_address.
  destruct (parameters !! "local_addr") as [a|]; simpl; [| apply not_elem_of_nil].
  destruct (negb (a =? "")%string), gateway_ports; simpl;
    try destruct (a =? "*")%string; simpl;
    rewrite ?elem_of_nil, ?list_elem_of_singleton; try tauto; discriminate.
Qed.

(** X3: [Create] logs an error exactly when it fails on a map that has
    the three keys; it fails without logging anything exactly when a key
    is missing, and it never logs an error when it returns a service. *)
Theorem Create_failure_logging w parameters gateway_ports :
  let present := is_Some (parameters !! "local_addr")
                 ∧ is_Some (parameters !! "local_port")
                 ∧ is_Some (parameters !! "remote_port") in
  ((∃ m, (error, m) ∈ Create_log w parameters gateway_ports)
   ↔ Create w parameters gateway_ports = None ∧ present)
  ∧ (Create w parameters gateway_ports = None
     ∧ Create_log w parameters gateway_ports = [] ↔ ¬ present).
Proof.
  intros present. subst present. unfold Create, Create_log.
  destruct (keys_present_or_missing parameters)
    as [(a & lp & rp & Ha & Hl & Hr) | Hmiss].
  - assert (Hp : is_Some (parameters !! "local_addr")
                 ∧ is_Some (parameters !! "local_port")
                 ∧ is_Some (parameters !! "remote_port")) by (rewrite Ha, Hl, Hr; eauto).
    rewrite (Create_at_present _ _ gateway_ports _ _ _ Ha Hl Hr). cbv zeta.
    pose proof (bind_address_log_warn parameters gateway_ports) as Hw.
    destruct (bind_address parameters gateway_ports) as [wlog addr]. simpl in *.
    destruct (stoul w lp) as [e|l]; [| destruct (stoul w rp) as [e|r]];
      [| | destruct (65535 <? to_uint32 l)]; simpl.
    1-3: split;
      [split; [done | intros _; eexists; apply elem_of_app; right; apply list_elem_of_here]
      | split; [intros [_ Hnil]; by destruct wlog | tauto]].
    split; [split; [intros [m Hm]; by apply Hw in Hm | intros [? _]; done]
           | split; [intros [? _]; done | tauto]].
  - rewrite (Create_at_missing _ _ _ Hmiss). simpl.
    assert (Hnp : ¬ (is_Some (parameters !! "local_addr")
                     ∧ is_Some (parameters !! "local_port")
                     ∧ is_Some (parameters !! "remote_port"))).
    { intros (H1 & H2 & H3).
      destruct Hmiss as [H | [H | H]]; rewrite H in *; by eapply is_Some_None. }
    split; [split; [intros [m Hm]; by apply elem_of_nil in Hm | tauto] | tauto].
Qed.

(** ** What [stoul] lets through *)

Lemma skip_space_app ws s :
  forallb isspace (list_ascii_of_string ws) = true →
  skip_space (ws ++ s)%string = skip_space s.
Proof.
  induction ws as [|c ws IH]; simpl; [done |].
  intros [Hc Hws]%andb_prop. rewrite Hc. by apply IH.
Qed.

Lemma digit_run_app s junk :
  forallb isdigit (list_ascii_of_string s) = true → digit_run junk = [] →
  digit_run (s ++ junk)%string = list_ascii_of_string s.
Proof.
  intros Hs Hj. induction s as [|c s IH]; simpl in *; [done |].
  apply andb_prop in Hs as [Hc Hs]. rewrite Hc. f_equal. by apply IH.
Qed.

(** White space before a run of digits and text after it that does not
    start with a digit are invisible to [stoul]. *)
Lemma stoul_padding w ws s junk :
  forallb isspace (list_ascii_of_string ws) = true →
  well_formed_decimal s = true →
  digit_run junk = [] →
  stoul w (ws ++ s ++ junk)%string = stoul w s.
Proof.
  intros Hws Hwf Hj. unfold stoul. rewrite (skip_space_app _ _ Hws).
  unfold well_formed_decimal in Hwf.
  destruct s as [|c rest]; [done |].
  change (list_ascii_of_string (String c rest))
    with (c :: list_ascii_of_string rest) in Hwf.
  pose proof Hwf as [Hc Hrest]%andb_prop.
  change (String c rest ++ junk)%string with (String c (rest ++ junk)%string).
  rewrite !(isdigit_first _ _ Hc).
  change (String c (rest ++ junk)%string) with (String c rest ++ junk)%string.
  rewrite (digit_run_app (String c rest) junk Hwf Hj).
  by rewrite (digit_run_all (String c rest) Hwf).
Qed.

Lemma Create_at_stoul w parameters gateway_ports key s s' :
  key = "local_port" ∨ key = "remote_port" →
  stoul w s = stoul w s' →
  Create_at w (<[key := s]> parameters) gateway_ports
  = Create_at w (<[key := s']> parameters) gateway_ports.
Proof.
  intros Hkey Hst.
  unfold Create_at, count, bind_address, extract_ports, at_, try_bind.
  destruct Hkey as [-> | ->];
    rewrite !lookup_insert_eq, !lookup_insert_ne by done; by rewrite Hst.
Qed.

(** X4: in [local_port] and in [remote_port], white space before the
    digits and any text after them that does not start with a digit
    change nothing: [Create] logs and returns what it does for the bare
    digits. *)
Theorem Create_port_padding_ignored w parameters gateway_ports key ws s junk :
  key = "local_port" ∨ key = "remote_port" →
  forallb isspace (list_ascii_of_string ws) = true →
  well_formed_decimal s = true →
  digit_run junk = [] →
  Create_at w (<[key := (ws ++ s ++ junk)%string]> parameters) gateway_ports
  = Create_at w (<[key := s]> parameters) gateway_ports.
Proof.
  intros Hkey Hws Hwf Hj.
  apply Create_at_stoul; [done |]. by apply stoul_padding.
Qed.

Lemma Create_port_padding_ignored_witness :
  ("local_port" = "local_port" ∨ "local_port" = "remote_port")
  ∧ forallb isspace (list_ascii_of_string "  ") = true
  ∧ well_formed_decimal "9000" = true
  ∧ digit_run "/tcp" = []
  ∧ Create_at UL32 (<["local_port" := "  9000/tcp"]> (three_keys "" "" "42")) true
    = Create_at UL32 (<["local_port" := "9000"]> (three_keys "" "" "42")) true.
Proof.
  assert (H1 : "local_port" = "local_port" ∨ "local_port" = "remote_port")
    by (left; reflexivity).
  assert (H2 : forallb isspace (list_ascii_of_string "  ") = true) by reflexivity.
  assert (H3 : well_formed_decimal "9000" = true) by reflexivity.
  assert (H4 : digit_run "/tcp" = []) by reflexivity.
  repeat (split; [assumption |]).
  exact (Create_port_padding_ignored UL32 (three_keys "" "" "42") true
           _ "  " "9000" "/tcp" H1 H2 H3 H4).
Defined.

(** ** Signs and the width of [unsigned long] *)

Lemma stoul_bound w s v : stoul w s = inr v → v ≤ ULONG_MAX w.
Proof.
  rewrite stoul_unfold.
  destruct (subject_digits s) as [|c ds]; [done |]. cbv zeta.
  destruct (N.ltb_spec (ULONG_MAX w) (digits_value (c :: ds) 0)) as [|Hle]; [done |].
  intros [= <-]. destruct (take_sign (skip_space s)).1; [| done].
  apply N.lt_succ_r. rewrite <- N.add_1_r. apply N.mod_lt. lia.
Qed.

Lemma stoul_minus w n :
  n ≤ ULONG_MAX w →
  stoul w (String "-" (to_string n))
  = inr ((ULONG_MAX w + 1 - n) mod (ULONG_MAX w + 1)).
Proof.
  intros Hn. unfold stoul, to_string.
  destruct (subject_digits_of_uint (N.to_uint n)) as (_ & Hne & Hv).
  rewrite DecimalN.Unsigned.of_to in Hv.
  change (skip_space (String "-" ?s)) with (String "-" s).
  change (take_sign (String "-" ?s)) with (true, s).
  cbv beta iota zeta.
  destruct (digit_run _) as [|c ds]; [done |].
  rewrite Hv.
  destruct (N.ltb_spec (ULONG_MAX w) n); [lia | reflexivity].
Qed.

Lemma negated_uint32 w n :
  1 ≤ n → n < 2 ^ 32 →
  to_uint32 ((ULONG_MAX w + 1 - n) mod (ULONG_MAX w + 1)) = 2 ^ 32 - n.
Proof.
  intros H1 H2. unfold to_uint32.
  destruct w; unfold ULONG_MAX.
  - replace (2 ^ 32 - 1 + 1) with (2 ^ 32) by lia.
    rewrite N.Div0.mod_mod. apply N.mod_small. lia.
  - replace (2 ^ 64 - 1 + 1) with (2 ^ 64) by lia.
    rewrite (N.mod_small (2 ^ 64 - n)) by lia.
    symmetry. apply (N.mod_unique _ _ (2 ^ 32 - 1)); lia.
Qed.

(** X5: a [local_port] written with a minus sign is not refused as
    such: for a magnitude n from 1 to 2^32 - 1 the port [Create] checks
    is 2^32 - n, so the creation fails with OutOfRange when that exceeds
    65535 and otherwise returns a service on port 2^32 - n. *)
Theorem Create_negative_local_port w parameters gateway_ports a rp r n :
  parameters !! "local_addr" = Some a →
  parameters !! "local_port" = Some (String "-" (to_string n)) →
  parameters !! "remote_port" = Some rp →
  stoul w rp = inr r →
  1 ≤ n → n < 2 ^ 32 →
  Create_at w parameters gateway_ports
  = if 65535 <? 2 ^ 32 - n
    then (((bind_address parameters gateway_ports).1
           ++ [(error, local_port_out_of_range (2 ^ 32 - n))])%list,
          exit_port_range)
    else ((bind_address parameters gateway_ports).1,
          exit_created (mkSocketsToFibers (spec_bind_address a gateway_ports)
                          (2 ^ 32 - n) (r mod 2 ^ 32))).
Proof.
  intros Ha Hl Hr Hsr H1 H2.
  assert (Hsl : stoul w (String "-" (to_string n))
                = inr ((ULONG_MAX w + 1 - n) mod (ULONG_MAX w + 1))).
  { apply stoul_minus. destruct w; simpl; lia. }
  rewrite (Create_ports_parsed _ _ _ _ _ _ _ _ Ha Hl Hr Hsl Hsr). cbv zeta.
  pose proof (negated_uint32 w n H1 H2) as Hneg. unfold to_uint32 in Hneg.
  by rewrite Hneg.
Qed.

Lemma Create_negative_local_port_witness :
  let p := three_keys "" "-4294967216" "42" in
  p !! "local_addr" = Some ""
  ∧ p !! "local_port" = Some (String "-" (to_string 4294967216))
  ∧ p !! "remote_port" = Some "42"
  ∧ stoul UL32 "42" = inr 42
  ∧ 1 ≤ 4294967216 ∧ 4294967216 < 2 ^ 32
  ∧ Create UL32 p true = Some (mkSocketsToFibers "127.0.0.1" 80 42).
Proof.
  intros p.
  assert (H1 : p !! "local_addr" = Some "") by reflexivity.
  assert (H2 : p !! "local_port" = Some (String "-" (to_string 4294967216)))
    by reflexivity.
  assert (H3 : p !! "remote_port" = Some "42") by reflexivity.
  assert (H4 : stoul UL32 "42" = inr 42) by reflexivity.
  assert (H5 : 1 ≤ 4294967216) by (vm_compute; discriminate).
  assert (H6 : 4294967216 < 2 ^ 32) by reflexivity.
  repeat (split; [assumption |]).
  unfold Create.
  rewrite (Create_negative_local_port UL32 p true _ _ _ _ H1 H2 H3 H4 H5 H6).
  reflexivity.
Defined.

(** X9: on a target whose [unsigned long] is 32 bits wide nothing is
    narrowed: the ports of a service that [Create] returns are the very
    values [stoul] read from the map, and the local port it read was at
    most 65535. *)
Theorem Create_UL32_exact parameters gateway_ports svc lp rp :
  Create UL32 parameters gateway_ports = Some svc →
  parameters !! "local_port" = Some lp →
  parameters !! "remote_port" = Some rp →
  stoul UL32 lp = inr (local_port_ svc)
  ∧ stoul UL32 rp = inr (remote_port_ svc)
  ∧ local_port_ svc ≤ 65535.
Proof.
  unfold Create. intros HC Hl Hr.
  destruct (parameters !! "local_addr") as [a|] eqn:Ha;
    [| by rewrite Create_at_missing in HC by (by left)].
  rewrite (Create_at_present _ _ _ _ _ _ Ha Hl Hr) in HC. cbv zeta in HC.
  destruct (stoul UL32 lp) as [e|l] eqn:El; [done |].
  destruct (stoul UL32 rp) as [e|r] eqn:Er; [done |].
  pose proof (stoul_bound _ _ _ El) as Bl. pose proof (stoul_bound _ _ _ Er) as Br.
  simpl in Bl, Br. unfold to_uint32 in HC.
  rewrite (N.mod_small l), (N.mod_small r) in HC by lia.
  destruct (N.ltb_spec 65535 l) as [|Hle]; [done |].
  simpl in HC. injection HC as <-. done.
Qed.

Lemma Create_UL32_exact_witness :
  let p := three_keys "" " 443 " "+7" in
  Create UL32 p true = Some (mkSocketsToFibers "127.0.0.1" 443 7)
  ∧ p !! "local_port" = Some " 443 "
  ∧ p !! "remote_port" = Some "+7"
  ∧ stoul UL32 " 443 " = inr 443
  ∧ stoul UL32 "+7" = inr 7.
Proof.
  intros p.
  assert (H1 : Create UL32 p true = Some (mkSocketsToFibers "127.0.0.1" 443 7))
    by reflexivity.
  assert (H2 : p !! "local_port" = Some " 443 ") by reflexivity.
  assert (H3 : p !! "remote_port" = Some "+7") by reflexivity.
  repeat (split; [assumption |]).
  destruct (Create_UL32_exact p true _ _ _ H1 H2 H3) as (E1 & E2 & _).
  split; [exact E1 | exact E2].
Defined.

Lemma stoul_UL32_UL64 s v :
  stoul UL32 s = inr v →
  ∃ v', stoul UL64 s = inr v' ∧ to_uint32 v' = to_uint32 v.
Proof.
  rewrite !stoul_unfold.
  destruct (subject_digits s) as [|c ds]; [done |]. cbv zeta.
  set (dv := digits_value (c :: ds) 0).
  destruct (N.ltb_spec (ULONG_MAX UL32) dv) as [|Hle]; [done |].
  simpl in Hle.
  destruct (N.ltb_spec (ULONG_MAX UL64) dv) as [Hgt|_]; [simpl in Hgt; lia |].
  intros [= <-]. eexists; split; [reflexivity |].
  destruct (take_sign (skip_space s)).1; [| done].
  destruct (decide (dv = 0)) as [->|Hne]; [done |].
  rewrite (negated_uint32 UL64), (negated_uint32 UL32); [done | lia..].
Qed.

(** X10: what a target with a 32-bit [unsigned long] accepts, a target
    with a 64-bit one accepts too, and returns the same service. *)
Theorem Create_UL32_UL64 parameters gateway_ports svc :
  Create UL32 parameters gateway_ports = Some svc →
  Create UL64 parameters gateway_ports = Some svc.
Proof.
  unfold Create.
  destruct (keys_present_or_missing parameters)
    as [(a & lp & rp & Ha & Hl & Hr) | Hmiss];
    [| by rewrite (Create_at_missing _ _ _ Hmiss)].
  rewrite !(Create_at_present _ _ _ _ _ _ Ha Hl Hr). cbv zeta.
  destruct (stoul UL32 lp) as [e|l] eqn:El; [done |].
  destruct (stoul UL32 rp) as [e|r] eqn:Er; [done |].
  destruct (stoul_UL32_UL64 _ _ El) as (l' & -> & <-).
  destruct (stoul_UL32_UL64 _ _ Er) as (r' & -> & <-).
  done.
Qed.

Lemma Create_UL32_UL64_witness :
  Create UL32 (three_keys "*" "-4294967216" "-1") true
  = Some (mkSocketsToFibers "0.0.0.0" 80 4294967295)
  ∧ Create UL64 (three_keys "*" "-4294967216" "-1") true
    = Some (mkSocketsToFibers "0.0.0.0" 80 4294967295).
Proof.
  assert (H : Create UL32 (three_keys "*" "-4294967216" "-1") true
              = Some (mkSocketsToFibers "0.0.0.0" 80 4294967295)) by reflexivity.
  split; [exact H | exact (Create_UL32_UL64 _ _ _ H)].
Defined.

(** ** Decimal ports *)

Lemma stoul_decimal w s :
  well_formed_decimal s = true →
  stoul w s = if ULONG_MAX w <? decimal_value s then inl out_of_range
              else inr (decimal_value s).
Proof.
  intros Hwf.
  destruct (N.ltb_spec (ULONG_MAX w) (decimal_value s)) as [Hgt|Hle];
    [| by apply stoul_well_formed].
  rewrite stoul_unfold.
  destruct (subject_digits_well_formed s Hwf) as (_ & -> & Hne).
  unfold decimal_value in Hgt.
  destruct (list_ascii_of_string s) as [|c cs]; [done |]. cbv zeta.
  destruct (N.ltb_spec (ULONG_MAX w) (digits_value (c :: cs) 0)); [done | lia].
Qed.

(** X8: for a [local_port] made of digits only, with the other two
    entries accepted, the outcome of [Create] is decided by the decimal
    value v: above [ULONG_MAX] the creation fails with InvalidParameters;
    otherwise it fails with OutOfRange when v mod 2^32 exceeds 65535 and
    succeeds on port v mod 2^32 when it does not. *)
Theorem Create_decimal_local_port w parameters gateway_ports a lp rp r :
  parameters !! "local_addr" = Some a →
  parameters !! "local_port" = Some lp →
  parameters !! "remote_port" = Some rp →
  well_formed_decimal lp = true →
  stoul w rp = inr r →
  let v := decimal_value lp in
  Create_failure w parameters gateway_ports
  = (if ULONG_MAX w <? v then Some InvalidParameters
     else if 65535 <? v mod 2 ^ 32 then Some OutOfRange else None)
  ∧ (v ≤ ULONG_MAX w → v mod 2 ^ 32 ≤ 65535 →
     Create w parameters gateway_ports
     = Some (mkSocketsToFibers (spec_bind_address a gateway_ports)
               (v mod 2 ^ 32) (r mod 2 ^ 32))).
Proof.
  intros Ha Hl Hr Hwf Hsr v. subst v.
  unfold Create_failure, Create.
  rewrite (Create_at_present _ _ _ _ _ _ Ha Hl Hr), (stoul_decimal _ _ Hwf), Hsr.
  cbv zeta. unfold to_uint32.
  destruct (N.ltb_spec (ULONG_MAX w) (decimal_value lp)) as [Hgt|Hle];
    [split; [done | lia] |].
  destruct (N.ltb_spec 65535 (decimal_value lp mod 2 ^ 32)) as [Hgt'|Hle'];
    (split; [done | ]); [lia | done].
Qed.

Lemma Create_decimal_local_port_witness :
  let p := three_keys "" "4294967376" "42" in
  p !! "local_addr" = Some "" ∧ p !! "local_port" = Some "4294967376"
  ∧ p !! "remote_port" = Some "42"
  ∧ well_formed_decimal "4294967376" = true
  ∧ stoul UL32 "42" = inr 42 ∧ stoul UL64 "42" = inr 42
  ∧ Create_failure UL32 p true = Some InvalidParameters
  ∧ Create UL64 p true = Some (mkSocketsToFibers "127.0.0.1" 80 42).
Proof.
  intros p.
  assert (H1 : p !! "local_addr" = Some "") by reflexivity.
  assert (H2 : p !! "local_port" = Some "4294967376") by reflexivity.
  assert (H3 : p !! "remote_port" = Some "42") by reflexivity.
  assert (H4 : well_formed_decimal "4294967376" = true) by reflexivity.
  assert (H5 : stoul UL32 "42" = inr 42) by reflexivity.
  assert (H6 : stoul UL64 "42" = inr 42) by reflexivity.
  repeat (split; [assumption |]).
  split.
  - exact (proj1 (Create_decimal_local_port UL32 p true _ _ _ _ H1 H2 H3 H4 H5)).
  - apply (proj2 (Create_decimal_local_port UL64 p true _ _ _ _ H1 H2 H3 H4 H6));
      vm_compute; discriminate.
Defined.

(** ** The request of [GetCreateRequest] *)

Lemma string_of_uint_digits d :
  forallb isdigit (list_ascii_of_string (NilEmpty.string_of_uint d)) = true.
Proof. induction d; simpl; done. Qed.

Lemma string_of_uint_decimal d :
  well_formed_decimal (NilZero.string_of_uint d) = true
  ∧ decimal_value (NilZero.string_of_uint d) = N.of_uint d.
Proof.
  destruct d as [| d | d | d | d | d | d | d | d | d | d];
    [split; reflexivity | ..].
  all: split; [exact (string_of_uint_digits _) |].
  all: unfold decimal_value; cbn [NilZero.string_of_uint].
  all: rewrite <- (digit_run_all _ (string_of_uint_digits _)).
  all: apply digits_value_of_uint.
Qed.

Lemma to_string_decimal n :
  well_formed_decimal (to_string n) = true ∧ decimal_value (to_string n) = n.
Proof.
  unfold to_string.
  destruct (string_of_uint_decimal (N.to_uint n)) as [H1 H2].
  by rewrite DecimalN.Unsigned.of_to in H2.
Qed.

(** X6: the map of a request built by [GetCreateRequest] has the three
    keys [Create] reads and no other; its two port entries are made of
    digits only and their decimal values are the ports given. *)
Theorem GetCreateRequest_parameters kFactoryId local_addr local_port remote_port :
  let req := GetCreateRequest kFactoryId local_addr local_port remote_port in
  dom (parameters req)
  = ({["local_addr"; "local_port"; "remote_port"]} : gset string)
  ∧ parameters req !! "local_addr" = Some local_addr
  ∧ (∃ lp, parameters req !! "local_port" = Some lp
           ∧ well_formed_decimal lp = true ∧ decimal_value lp = local_port)
  ∧ (∃ rp, parameters req !! "remote_port" = Some rp
           ∧ well_formed_decimal rp = true ∧ decimal_value rp = remote_port).
Proof.
  intros req.
  destruct (GetCreateRequest_lookup kFactoryId local_addr local_port remote_port)
    as (Ha & Hl & Hr). fold req in Ha, Hl, Hr.
  split; [| split; [done | split]].
  - subst req. unfold GetCreateRequest, add_parameter. simpl.
    rewrite !dom_insert_L, dom_empty_L. set_solver.
  - exists (to_string local_port). split; [done | apply to_string_decimal].
  - exists (to_string remote_port). split; [done | apply to_string_decimal].
Qed.

(** X7: [GetCreateRequest] loses nothing: two requests are equal only
    when they were built from the same factory id, address and ports. *)
Theorem GetCreateRequest_inj k a lp rp k' a' lp' rp' :
  GetCreateRequest k a lp rp = GetCreateRequest k' a' lp' rp' →
  k = k' ∧ a = a' ∧ lp = lp' ∧ rp = rp'.
Proof.
  intros Heq.
  destruct (GetCreateRequest_lookup k a lp rp) as (Ha & Hl & Hr).
  destruct (GetCreateRequest_lookup k' a' lp' rp') as (Ha' & Hl' & Hr').
  cbv zeta in *. rewrite <- Heq in Ha', Hl', Hr'.
  rewrite Ha in Ha'. rewrite Hl in Hl'. rewrite Hr in Hr'.
  injection Ha' as Ea. injection Hl' as El. injection Hr' as Er.
  split; [exact (f_equal service_id Heq) | split; [done |]].
  split.
  - rewrite <- (proj2 (to_string_decimal lp)), <- (proj2 (to_string_decimal lp')).
    by rewrite El.
  - rewrite <- (proj2 (to_string_decimal rp)), <- (proj2 (to_string_decimal rp')).
    by rewrite Er.
Qed.

Lemma GetCreateRequest_inj_witness :
  GetCreateRequest 7 "192.0.2.1" 9000 42 = GetCreateRequest 7 "192.0.2.1" 9000 42
  ∧ 9000 = 9000.
Proof.
  assert (H : GetCreateRequest 7 "192.0.2.1" 9000 42
              = GetCreateRequest 7 "192.0.2.1" 9000 42) by reflexivity.
  split; [exact H |].
  exact (proj1 (proj2 (proj2 (GetCreateRequest_inj _ _ _ _ _ _ _ _ H)))).
Defined.

(** What [Create] makes of a request of [GetCreateRequest], under either
    gateway flag. *)
Lemma Create_of_request w kFactoryId local_addr local_port remote_port gateway_ports :
  local_port ≤ 65535 → remote_port < 2 ^ 32 →
  Create w (parameters (GetCreateRequest kFactoryId local_addr local_port remote_port))
    gateway_ports
  = Some (mkSocketsToFibers (spec_bind_address local_addr gateway_ports)
            local_port remote_port).
Proof.
  intros Hlp Hrp.
  destruct (GetCreateRequest_lookup kFactoryId local_addr local_port remote_port)
    as (Ha & Hl & Hr).
  assert (Hsl : stoul w (to_string local_port) = inr local_port)
    by (apply stoul_to_string; destruct w; simpl; lia).
  assert (Hsr : stoul w (to_string remote_port) = inr remote_port)
    by (apply stoul_to_string; destruct w; simpl; lia).
  unfold Create.
  rewrite (Create_ports_parsed w _ _ _ _ _ _ _ Ha Hl Hr Hsl Hsr). cbv zeta.
  rewrite (N.mod_small local_port), (N.mod_small remote_port) by lia.
  destruct (N.ltb_spec 65535 local_port) as [Hgt|_]; [lia | done].
Qed.

Lemma spec_bind_address_stable a gateway_ports gateway_ports' :
  spec_bind_address (spec_bind_address a gateway_ports) gateway_ports'
  = if gateway_ports' then spec_bind_address a gateway_ports else "127.0.0.1".
Proof.
  unfold spec_bind_address.
  destruct (decide (a = "")) as [->|Ha]; [by destruct gateway_ports' |].
  destruct gateway_ports; [| by destruct gateway_ports'].
  destruct (decide (a = "*")) as [->|Hs]; [by destruct gateway_ports' |].
  rewrite (decide_False _ _ Ha). destruct gateway_ports'; [| done].
  by rewrite (decide_False _ _ Hs).
Qed.

(** X12: a service that [Create] returned can be replicated: the request
    [GetCreateRequest] builds from its address and ports makes [Create],
    with gateway ports enabled and on either width of [unsigned long],
    return an equal service. *)
Theorem Create_request_of_service
    w w' kFactoryId (params : Parameters) gateway_ports svc :
  Create w params gateway_ports = Some svc →
  Create w'
    (parameters
       (GetCreateRequest kFactoryId (local_addr_ svc) (local_port_ svc)
          (remote_port_ svc))) true
  = Some svc.
Proof.
  unfold Create at 1.
  destruct (keys_present_or_missing params)
    as [(a & lp & rp & Ha & Hl & Hr) | Hmiss];
    [| by rewrite (Create_at_missing _ _ _ Hmiss)].
  rewrite (Create_at_present _ _ _ _ _ _ Ha Hl Hr). cbv zeta.
  destruct (stoul w lp) as [e|l]; [done |].
  destruct (stoul w rp) as [e|r]; [done |].
  destruct (N.ltb_spec 65535 (to_uint32 l)) as [|Hle]; [done |].
  cbn [ptr_of_exit snd]. intros [= <-].
  cbn [local_addr_ local_port_ remote_port_].
  rewrite Create_of_request; [| done | unfold to_uint32; apply N.mod_lt; lia].
  by rewrite spec_bind_address_stable.
Qed.

Lemma Create_request_of_service_witness :
  Create UL64 (three_keys "*" "80abc" "4294967297") true
  = Some (mkSocketsToFibers "0.0.0.0" 80 1)
  ∧ Create UL32 (parameters (GetCreateRequest 7 "0.0.0.0" 80 1)) true
    = Some (mkSocketsToFibers "0.0.0.0" 80 1).
Proof.
  assert (H : Create UL64 (three_keys "*" "80abc" "4294967297") true
              = Some (mkSocketsToFibers "0.0.0.0" 80 1)) by reflexivity.
  split; [exact H |].
  exact (Create_request_of_service UL64 UL32 7 _ _ _ H).
Defined.

End FactoryFacts.

(** ** The creator registered with the factory *)

(** X11: with a disabled configuration [RegisterToServiceFactory] leaves
    the factory alone.  With an enabled one it makes one registration,
    under the factory id, of a creator that is [Create] with the
    configured gateway flag: given the map of a request built by
    [GetCreateRequest] for a local port of at most 65535 and a remote
    port below 2^32, it returns a service with these ports, bound to
    127.0.0.1 without gateway ports and to the address the flag allows
    with them. *)
Theorem RegisterToServiceFactory_creator
    w kFactoryId (Config : Type) (enabled gateway_ports : Config → bool)
    (ServiceFactory : Type)
    (RegisterServiceCreator : N → ServiceCreator → ServiceFactory → ServiceFactory)
    (p_factory : ServiceFactory) (config : Config) :
  let registered :=
    RegisterToServiceFactory w kFactoryId Config enabled gateway_ports
      ServiceFactory RegisterServiceCreator p_factory config in
  (enabled config = false → registered = p_factory)
  ∧ (enabled config = true →
     ∃ creator : ServiceCreator,
       registered = RegisterServiceCreator kFactoryId creator p_factory
       ∧ (∀ parameters, creator parameters
                        = Create w parameters (gateway_ports config))
       ∧ (∀ local_addr local_port remote_port,
            local_port ≤ 65535 → remote_port < 2 ^ 32 →
            creator (parameters
                       (GetCreateRequest kFactoryId local_addr local_port remote_port))
            = Some (mkSocketsToFibers
                      (spec_bind_address local_addr (gateway_ports config))
                      local_port remote_port))
       ∧ (gateway_ports config = false →
          ∀ parameters svc, creator parameters = Some svc →
                            local_addr_ svc = "127.0.0.1")).
Proof.
  intros registered. subst registered. unfold RegisterToServiceFactory.
  split; [by intros -> |].
  intros ->. simpl. eexists. split; [reflexivity |].
  split; [done |]. split.
  - intros local_addr local_port remote_port Hlp Hrp.
    exact (Create_of_request w kFactoryId local_addr local_port remote_port
             _ Hlp Hrp).
  - intros Hgp params svc. rewrite Hgp. unfold Create.
    destruct (keys_present_or_missing params)
      as [(a & lp & rp & Ha & Hl & Hr) | Hmiss];
      [| by rewrite (Create_at_missing _ _ _ Hmiss)].
    rewrite (Create_at_present _ _ _ _ _ _ Ha Hl Hr). cbv zeta.
    destruct (stoul w lp) as [e|l]; [done |].
    destruct (stoul w rp) as [e|r]; [done |].
    destruct (65535 <? to_uint32 l); [done |].
    simpl. intros [= <-]. simpl.
    unfold spec_bind_address. by destruct (decide (a = "")).
Qed.

Lemma RegisterToServiceFactory_creator_witness :
  let reg := λ (id : N) (c : ServiceCreator) (f : list (N * ServiceCreator)),
               (id, c) :: f in
  ∃ creator : ServiceCreator,
    RegisterToServiceFactory UL64 7 (bool * bool) fst snd
      (list (N * ServiceCreator)) reg [] (true, false)
    = [(7, creator)]
    ∧ creator (parameters (GetCreateRequest 7 "192.0.2.1" 9000 42))
      = Some (mkSocketsToFibers "127.0.0.1" 9000 42).
Proof.
  intros reg.
  destruct (proj2 (RegisterToServiceFactory_creator UL64 7 (bool * bool) fst snd
                     (list (N * ServiceCreator)) reg [] (true, false)) eq_refl)
    as (creator & Hreg & _ & Hrt & _).
  exists creator. split; [exact Hreg |].
  apply (Hrt "192.0.2.1" 9000 42); [vm_compute; discriminate | reflexivity].
Defined.
